(** * Gamers Heaven API: a shallow embedding of [main.py]

    The service is a FastAPI application over a MongoDB database.  The
    embedding follows the source top-down: the pydantic models [ProductIn]
    and [ProductOut], the helper [_doc_to_product], the route handlers and
    the start-up seeding.  Python exceptions are the [Raise] branch of
    [result]; the database handle [db] of the source, which is [None] when
    no database is configured, is an [option Database]. *)

From Stdlib Require Import ZArith QArith Qround Ascii String List Sorted Permutation Lia.
From stdpp Require Import base option gmap strings list.

Open Scope Z_scope.

(** ** Python values and exceptions *)

(** The values a stored document or a JSON request body holds under a key.
    Python floats are modelled by the rationals: the source only compares
    them with the bounds [0] and [5] and passes them on unchanged. *)
Inductive value : Type :=
| VNone
| VStr (s : string)
| VInt (z : Z)
| VFloat (q : Q).

(** The exceptions that can leave a handler, and where they come from. *)
Inductive exn : Type :=
| HTTPException (status_code : Z) (detail : string)
    (* raised by the handlers themselves *)
| RequestValidationError
    (* FastAPI: a query parameter or the request body fails its declared
       constraints; answered with status 422 before the handler is called *)
| ValidationError
    (* pydantic: constructing a model inside a handler fails *)
| InvalidId
    (* bson: the string is not a valid ObjectId *)
| TypeError
    (* sorted() over values that are not all strings, or a result that
       does not fit the declared List[str] response model *)
| RegexOutsideModel
    (* a $regex pattern using syntax that [regex_search] does not model *)
| OverflowError
    (* bson: an integer of the document does not fit in eight bytes *)
| DuplicateKeyError.
    (* pymongo: the collection already holds a document with this [_id] *)

Inductive result (A : Type) : Type :=
| Ok (a : A)
| Raise (e : exn).
Arguments Ok {A} a.
Arguments Raise {A} e.

(** The three error kinds of the service contract and the HTTP answers that
    carry them: 500 with the handlers' fixed message, 404, and 422. *)
Inductive ErrorKind : Type := ServiceUnavailable | NotFound | InvalidArgument.

Definition error_kind {A} (r : result A) : option ErrorKind :=
  match r with
  | Raise (HTTPException 500 _) => Some ServiceUnavailable
  | Raise (HTTPException 404 _) => Some NotFound
  | Raise RequestValidationError => Some InvalidArgument
  | _ => None
  end.

(** Python truthiness, as used by [if q:] and [if c]. *)
Definition truthy (v : value) : bool :=
  match v with
  | VNone => false
  | VStr s => negb (String.eqb s "")
  | VInt z => negb (z =? 0)
  | VFloat q => negb (Qeq_bool q 0)
  end.

(** ** Models *)

(** [class ProductIn(BaseModel)] *)
Record ProductIn : Type := {
  title : string;
  description : option string;
  price : Q;
  category : string;
  platform : string;
  image_url : option string;
  rating : option Q;
  stock : Z
}.

(** [class ProductOut(ProductIn)]: the inherited fields and [id: str]. *)
Record ProductOut : Type := {
  id_ : string;
  fields : ProductIn
}.

(** pydantic's field validators for the annotations the models use.  Each
    takes the value supplied for the field and returns the validated value,
    or [None] when validation fails.  The numeric validators are the ones
    for numbers: pydantic also reads a string that spells a number, a
    conversion that is left out here, so what is said below of the bodies
    that validation refuses is said of bodies whose numbers are numbers
    ([numbers_not_strings]). *)
Definition str_field (v : value) : option string :=
  match v with VStr s => Some s | _ => None end.

Definition optional_str_field (v : value) : option (option string) :=
  match v with VNone => Some None | VStr s => Some (Some s) | _ => None end.

Definition float_field (v : value) : option Q :=
  match v with
  | VInt z => Some (inject_Z z)
  | VFloat q => Some q
  | _ => None
  end.

Definition int_field (v : value) : option Z :=
  match v with
  | VInt z => Some z
  | VFloat q => if Qeq_bool q (inject_Z (Qfloor q)) then Some (Qfloor q) else None
  | _ => None
  end.

(** [price: float = Field(..., ge=0)] *)
Definition price_field (v : value) : option Q :=
  p ← float_field v; if Qle_bool 0 p then Some p else None.

(** [rating: Optional[float] = Field(4.5, ge=0, le=5)] *)
Definition rating_field (v : value) : option (option Q) :=
  match v with
  | VNone => Some None
  | _ => r ← float_field v;
         if Qle_bool 0 r && Qle_bool r 5 then Some (Some r) else None
  end.

(** [stock: int = Field(100, ge=0)] *)
Definition stock_field (v : value) : option Z :=
  z ← int_field v; if 0 <=? z then Some z else None.

(** The declared defaults of [ProductIn]. *)
Definition rating_default : option Q := Some 4.5%Q.
Definition stock_default : Z := 100.

(** A field declared without a default is required; one with a default
    takes it, unvalidated, when no argument is passed. *)
Definition required {A} (f : value → option A) (arg : option value) : option A :=
  arg ≫= f.

Definition with_default {A} (f : value → option A) (d : A) (arg : option value)
  : option A :=
  match arg with None => Some d | Some v => f v end.

(** [ProductIn(title=..., ..., stock=...)]: each argument is the keyword
    argument passed for the field, [None] when it is not passed. *)
Definition ProductIn_init
    (a_title a_description a_price a_category a_platform a_image_url
     a_rating a_stock : option value) : option ProductIn :=
  t ← required str_field a_title;
  d ← with_default optional_str_field None a_description;
  p ← required price_field a_price;
  c ← required str_field a_category;
  pl ← required str_field a_platform;
  i ← with_default optional_str_field None a_image_url;
  r ← with_default rating_field rating_default a_rating;
  s ← with_default stock_field stock_default a_stock;
  Some {| title := t; description := d; price := p; category := c;
          platform := pl; image_url := i; rating := r; stock := s |}.

(** [ProductOut(id=..., title=..., ...)] *)
Definition ProductOut_init
    (a_id a_title a_description a_price a_category a_platform a_image_url
     a_rating a_stock : option value) : option ProductOut :=
  i ← required str_field a_id;
  f ← ProductIn_init a_title a_description a_price a_category a_platform
        a_image_url a_rating a_stock;
  Some {| id_ := i; fields := f |}.

(** ** Stored documents *)

(** A bson [ObjectId]: twelve bytes, written as 24 lower-case hexadecimal
    digits by [str]. *)
Record ObjectId : Type := { oid_hex : string }.

(** A document of the [product] collection: the [_id] that the driver
    assigns on insertion, and the remaining keys. *)
Record document : Type := {
  _id : ObjectId;
  doc : gmap string value
}.

(** [doc.get(key)] and [doc.get(key, default)] *)
Definition doc_get (d : document) (key : string) : value :=
  default VNone (doc d !! key).

Definition doc_get_default (d : document) (key : string) (dflt : value) : value :=
  default dflt (doc d !! key).

(** ** Helpers *)

Definition lift {A} (e : exn) (o : option A) : result A :=
  match o with Some a => Ok a | None => Raise e end.

Definition _doc_to_product (d : document) : result ProductOut :=
  lift ValidationError
    (ProductOut_init
       (Some (VStr (oid_hex (_id d))))
       (Some (doc_get d "title"))
       (Some (doc_get d "description"))
       (Some (doc_get d "price"))
       (Some (doc_get d "category"))
       (Some (doc_get d "platform"))
       (Some (doc_get d "image_url"))
       (Some (doc_get_default d "rating" (VFloat 4.5)))
       (Some (doc_get_default d "stock" (VInt 0)))).

(** ** The database *)

(** *** ObjectIds *)

Definition is_hex_digit (c : ascii) : bool :=
  let n := N_of_ascii c in
  ((48 <=? n) && (n <=? 57) || (65 <=? n) && (n <=? 70)
   || (97 <=? n) && (n <=? 102))%N.

(** [str.lower] on one character: only the ASCII letters change. *)
Definition lower (c : ascii) : ascii :=
  let n := N_of_ascii c in
  if ((65 <=? n) && (n <=? 90))%N then ascii_of_N (n + 32) else c.

Definition lower_string (s : string) : string :=
  string_of_list_ascii (map lower (list_ascii_of_string s)).

(** [ObjectId(s)] for a string: 24 hexadecimal digits, else [InvalidId].
    Two spellings that differ in the case of a digit name the same id. *)
Definition ObjectId_init (s : string) : result ObjectId :=
  if (String.length s =? 24)%nat && forallb is_hex_digit (list_ascii_of_string s)
  then Ok {| oid_hex := lower_string s |}
  else Raise InvalidId.

Definition hex_digit (n : N) : ascii :=
  if (n <? 10)%N then ascii_of_N (48 + n) else ascii_of_N (87 + n).

(** The [k] lowest hexadecimal digits of [n], lowest first. *)
Fixpoint hex_digits_le (k : nat) (n : N) : list ascii :=
  match k with
  | O => []
  | S k' => hex_digit (n mod 16) :: hex_digits_le k' (n / 16)
  end.

(** The driver draws a fresh [ObjectId] for a document inserted without an
    [_id]; the draw is modelled by a counter kept with the database. *)
Definition ObjectId_new (counter : N) : ObjectId :=
  {| oid_hex := string_of_list_ascii (rev (hex_digits_le 24 counter)) |}.

(** [str(oid)] *)
Definition ObjectId_str (o : ObjectId) : string := oid_hex o.

Definition ObjectId_eqb (a b : ObjectId) : bool :=
  String.eqb (oid_hex a) (oid_hex b).

(** *** Collections *)

(** The database behind the handle [db]: its collections by name, each a
    list of documents in insertion order, and the ObjectId counter. *)
Record Database : Type := {
  collections : gmap string (list document);
  oid_counter : N
}.

(** [db[name]]: a collection that was never written to is empty. *)
Definition db_getitem (d : Database) (name : string) : list document :=
  default [] (collections d !! name).

(** [db[name].count_documents({})] *)
Definition count_documents (d : Database) (name : string) : Z :=
  Z.of_nat (length (db_getitem d name)).

(** The integers that BSON can hold: eight bytes, signed. *)
Definition int64 (z : Z) : bool := (- 2 ^ 63 <=? z) && (z <=? 2 ^ 63 - 1).

Definition bson_value (v : value) : bool :=
  match v with VInt z => int64 z | _ => true end.

(** The document can be encoded: every integer of it fits. *)
Definition bson_encodable (fs : gmap string value) : bool :=
  bool_decide (map_Forall (fun _ v => bson_value v = true) fs).

(** [db[name].insert_one(fields)] for a dict without [_id].  The driver
    draws the ObjectId, encodes the document, which raises [OverflowError]
    for an integer beyond eight bytes, and sends it; the collection refuses
    an [_id] it already holds with [DuplicateKeyError].  Otherwise the
    document is appended and its ObjectId returned.  The second component
    is the database afterwards: a failed insertion stores nothing. *)
Definition insert_one (d : Database) (name : string) (fs : gmap string value)
  : result ObjectId * Database :=
  let oid := ObjectId_new (oid_counter d) in
  let drawn := ((oid_counter d + 1) mod 2 ^ 96)%N in
  let unchanged := {| collections := collections d; oid_counter := drawn |} in
  if negb (bson_encodable fs) then (Raise OverflowError, unchanged)
  else if existsb (fun x => ObjectId_eqb (_id x) oid) (db_getitem d name)
  then (Raise DuplicateKeyError, unchanged)
  else
    (Ok oid,
     {| collections :=
          <[name := db_getitem d name ++ [{| _id := oid; doc := fs |}]]>
            (collections d);
        oid_counter := drawn |}).

(** [db[name].find_one({"_id": oid})] *)
Definition find_one_by_id (d : Database) (name : string) (oid : ObjectId)
  : option document :=
  List.find (fun x => ObjectId_eqb (_id x) oid) (db_getitem d name).

(** Equality of stored values, as the query engine compares them: numbers
    are compared by value whatever their type. *)
Definition value_eqb (a b : value) : bool :=
  match a, b with
  | VNone, VNone => true
  | VStr s, VStr t => String.eqb s t
  | VInt x, VInt y => x =? y
  | VInt x, VFloat q | VFloat q, VInt x => Qeq_bool (inject_Z x) q
  | VFloat p, VFloat q => Qeq_bool p q
  | _, _ => false
  end.

(** The distinct values of a list, in the order of their first occurrence. *)
Fixpoint dedup (vs : list value) : list value :=
  match vs with
  | [] => []
  | v :: rest => v :: filter (fun w => negb (value_eqb w v)) (dedup rest)
  end.

(** [db[name].distinct(key)]: the distinct values stored under [key];
    a document without the key contributes nothing. *)
Definition distinct (d : Database) (name key : string) : list value :=
  dedup (omap (fun x => doc x !! key) (db_getitem d name)).

(** *** Query filters *)

(** The two forms of condition the handlers put into a filter:
    [{key: v}] and [{key: {"$regex": pattern, "$options": options}}]. *)
Inductive condition : Type :=
| Equals (v : value)
| Regex (pattern options : string).

(** One element of a pattern. *)
Inductive atom : Type :=
| Lit (c : ascii)
| AnyChar.

(** The characters with a special meaning in a regular expression. *)
Definition metachars : list ascii :=
  list_ascii_of_string "\^$.|?*+()[]{}".

Definition is_metachar (c : ascii) : bool :=
  existsb (Ascii.eqb c) metachars.

(** The modelled fragment of the pattern syntax: ordinary characters stand
    for themselves and [.] for any character but a newline.  A pattern with
    another metacharacter is outside the fragment. *)
Fixpoint regex_parse (p : list ascii) : option (list atom) :=
  match p with
  | [] => Some []
  | c :: rest =>
      r ← regex_parse rest;
      if Ascii.eqb c "." then Some (AnyChar :: r)
      else if is_metachar c then None
      else Some (Lit c :: r)
  end.

Definition atom_matches (ignore_case : bool) (a : atom) (x : ascii) : bool :=
  match a with
  | Lit c => if ignore_case then Ascii.eqb (lower c) (lower x) else Ascii.eqb c x
  | AnyChar => negb (Ascii.eqb x "010")
  end.

(** The pattern matches a prefix of the subject. *)
Fixpoint match_here (ignore_case : bool) (p : list atom) (s : list ascii) : bool :=
  match p, s with
  | [], _ => true
  | _ :: _, [] => false
  | a :: p', x :: s' => atom_matches ignore_case a x && match_here ignore_case p' s'
  end.

(** The pattern matches somewhere in the subject (patterns are unanchored). *)
Fixpoint match_anywhere (ignore_case : bool) (p : list atom) (s : list ascii) : bool :=
  match_here ignore_case p s ||
  match s with
  | [] => false
  | _ :: s' => match_anywhere ignore_case p s'
  end.

(** [regex_search pattern options subject]: [None] when the pattern or the
    options are outside the modelled fragment. *)
Definition regex_search (pattern options subject : string) : option bool :=
  p ← regex_parse (list_ascii_of_string pattern);
  i ← (if String.eqb options "i" then Some true
       else if String.eqb options "" then Some false else None);
  Some (match_anywhere i p (list_ascii_of_string subject)).

Definition condition_supported (c : condition) : bool :=
  match c with
  | Equals _ => true
  | Regex p o => bool_decide (is_Some (regex_search p o ""))
  end.

(** Whether the value stored under the key (if any) satisfies the condition. *)
Definition condition_holds (c : condition) (stored : option value) : bool :=
  match c, stored with
  | Equals v, Some w => value_eqb w v
  | Regex p o, Some (VStr s) => bool_decide (regex_search p o s = Some true)
  | _, _ => false
  end.

(** A document matches a filter when it satisfies the condition of every
    key of the filter; the empty filter matches every document. *)
Definition doc_matches (f : gmap string condition) (x : document) : bool :=
  bool_decide (map_Forall (fun k c => condition_holds c (doc x !! k) = true) f).

Definition filter_supported (f : gmap string condition) : bool :=
  bool_decide (map_Forall (fun _ c => condition_supported c = true) f).

(** [db[name].find(f).limit(n)] *)
Definition find_limit (d : Database) (name : string) (f : gmap string condition)
    (n : Z) : result (list document) :=
  if filter_supported f
  then Ok (take (Z.to_nat n) (filter (fun x => doc_matches f x = true) (db_getitem d name)))
  else Raise RegexOutsideModel.

(** ** The [database] module *)

(** Modelled from the spec: [database.get_documents], the store adapter's
    find-many(filter, limit), which is not among the sources.  It returns
    the documents of the collection that match the filter, in the store's
    order, at most [limit] of them. *)
Definition get_documents (d : Database) (collection_name : string)
    (filter_dict : gmap string condition) (limit : Z) : result (list document) :=
  find_limit d collection_name filter_dict limit.

(** [model.model_dump()] of a [ProductIn]: every field under its name. *)
Definition opt_str_value (o : option string) : value :=
  match o with None => VNone | Some s => VStr s end.

Definition opt_float_value (o : option Q) : value :=
  match o with None => VNone | Some q => VFloat q end.

Definition model_dump (p : ProductIn) : gmap string value :=
  <["title" := VStr (title p)]>
  (<["description" := opt_str_value (description p)]>
  (<["price" := VFloat (price p)]>
  (<["category" := VStr (category p)]>
  (<["platform" := VStr (platform p)]>
  (<["image_url" := opt_str_value (image_url p)]>
  (<["rating" := opt_float_value (rating p)]>
  (<["stock" := VInt (stock p)]> ∅))))))).

Definition database_unavailable : exn :=
  HTTPException 500 "Database not available".

(** Modelled from the spec: [database.create_document], the store adapter's
    insert-one(document), which is not among the sources.  Store
    unavailability is checked before the store is touched and surfaces as
    the same error as in the other operations; otherwise one document with
    the fields of the model is persisted and its newly assigned identifier
    is returned as a string.  A failure of the insertion propagates as it
    is. *)
Definition create_document (db : option Database) (collection_name : string)
    (data : ProductIn) : result string * option Database :=
  match db with
  | None => (Raise database_unavailable, None)
  | Some d =>
      match insert_one d collection_name (model_dump data) with
      | (Ok oid, d') => (Ok (ObjectId_str oid), Some d')
      | (Raise e, d') => (Raise e, Some d')
      end
  end.

(** ** Routes *)

(** [mapM] over [result]: the list comprehension
    [[_doc_to_product(d) for d in docs]] stops at the first exception. *)
Fixpoint map_result {A B} (f : A → result B) (l : list A) : result (list B) :=
  match l with
  | [] => Ok []
  | x :: rest =>
      match f x with
      | Raise e => Raise e
      | Ok y =>
          match map_result f rest with
          | Raise e => Raise e
          | Ok ys => Ok (y :: ys)
          end
      end
  end.

(** [if o: f[key] = mk(o)]: only a truthy parameter, one that is neither
    [None] nor the empty string, adds a condition. *)
Definition set_if_truthy (key : string) (mk : string → condition)
    (o : option string) (f : gmap string condition) : gmap string condition :=
  match o with
  | Some s => if truthy (VStr s) then <[key := mk s]> f else f
  | None => f
  end.

(** The filter that [list_products] builds from its parameters. *)
Definition filter_q (q category platform : option string) : gmap string condition :=
  set_if_truthy "platform" (fun p => Equals (VStr p)) platform
    (set_if_truthy "category" (fun c => Equals (VStr c)) category
       (set_if_truthy "title" (fun s => Regex s "i") q ∅)).

(** The body of [list_products], entered with parameters that passed the
    declared validation. *)
Definition list_products (db : option Database) (q category platform : option string)
    (limit : Z) : result (list ProductOut) :=
  match db with
  | None => Raise database_unavailable
  | Some d =>
      match get_documents d "product" (filter_q q category platform) limit with
      | Raise e => Raise e
      | Ok docs => map_result _doc_to_product docs
      end
  end.

(** [limit: int = Query(50, ge=1, le=200)] *)
Definition limit_param (raw : option Z) : result Z :=
  match raw with
  | None => Ok 50
  | Some l => if (1 <=? l) && (l <=? 200) then Ok l else Raise RequestValidationError
  end.

(** [GET /api/products]: FastAPI validates the query parameters against
    their declarations, then calls the handler. *)
Definition route_list_products (db : option Database)
    (q category platform : option string) (limit : option Z)
  : result (list ProductOut) :=
  match limit_param limit with
  | Raise e => Raise e
  | Ok l => list_products db q category platform l
  end.

(** [GET /api/products/{product_id}] *)
Definition get_product (db : option Database) (product_id : string)
  : result ProductOut :=
  match db with
  | None => Raise database_unavailable
  | Some d =>
      let found :=
        match ObjectId_init product_id with
        | Ok oid => find_one_by_id d "product" oid
        | Raise _ => None          (* except Exception: doc = None *)
        end in
      match found with
      | None => Raise (HTTPException 404 "Product not found")
      | Some x => _doc_to_product x
      end
  end.

(** The strings of a list of values, when all of them are strings. *)
Fixpoint all_strings (vs : list value) : option (list string) :=
  match vs with
  | [] => Some []
  | VStr s :: rest => l ← all_strings rest; Some (s :: l)
  | _ :: _ => None
  end.

Fixpoint insert_sorted (s : string) (l : list string) : list string :=
  match l with
  | [] => [s]
  | t :: rest => if String.leb s t then s :: l else t :: insert_sorted s rest
  end.

(** [sorted(l)] on strings: ascending in the order of their characters. *)
Fixpoint sorted (l : list string) : list string :=
  match l with
  | [] => []
  | s :: rest => insert_sorted s (sorted rest)
  end.

(** [sorted([c for c in values if c])], returned as [List[str]]. *)
Definition sorted_truthy (values : list value) : result (list string) :=
  match all_strings (filter (fun c => truthy c = true) values) with
  | Some l => Ok (sorted l)
  | None => Raise TypeError
  end.

(** [GET /api/categories] *)
Definition get_categories (db : option Database) : result (list string) :=
  match db with
  | None => Raise database_unavailable
  | Some d => sorted_truthy (distinct d "product" "category")
  end.

(** [GET /api/platforms] *)
Definition get_platforms (db : option Database) : result (list string) :=
  match db with
  | None => Raise database_unavailable
  | Some d => sorted_truthy (distinct d "product" "platform")
  end.

(** The body of [create_product], entered with a validated [ProductIn]. *)
Definition create_product (db : option Database) (product : ProductIn)
  : result string * option Database :=
  create_document db "product" product.

(** [POST /api/products]: FastAPI builds the [ProductIn] from the JSON
    object of the request body, then calls the handler. *)
Definition ProductIn_of_json (body : gmap string value) : option ProductIn :=
  ProductIn_init (body !! "title") (body !! "description") (body !! "price")
    (body !! "category") (body !! "platform") (body !! "image_url")
    (body !! "rating") (body !! "stock").

Definition route_create_product (db : option Database) (body : gmap string value)
  : result string * option Database :=
  match ProductIn_of_json body with
  | None => (Raise RequestValidationError, db)
  | Some product => create_product db product
  end.

(** ** Seeding on start-up *)

Definition sample (a_title a_description : string) (a_price : Q)
    (a_category a_platform a_image_url : string) (a_rating : Q) (a_stock : Z)
  : gmap string value :=
  <["title" := VStr a_title]>
  (<["description" := VStr a_description]>
  (<["price" := VFloat a_price]>
  (<["category" := VStr a_category]>
  (<["platform" := VStr a_platform]>
  (<["image_url" := VStr a_image_url]>
  (<["rating" := VFloat a_rating]>
  (<["stock" := VInt a_stock]> ∅))))))).

Definition samples : list (gmap string value) :=
  [ sample "Elden Ring Runes"
      "Fast delivery of in-game currency to boost your journey across the Lands Between."
      19.99 "Currency" "PC"
      "https://images.unsplash.com/photo-1605901309584-818e25960a8f?q=80&w=1200&auto=format&fit=crop"
      4.9 999;
    sample "GTA Online Money"
      "Top up your GTA$ balance with trusted, secure delivery."
      24.99 "Currency" "PS5"
      "https://images.unsplash.com/photo-1538481199705-c710c4e965fc?q=80&w=1200&auto=format&fit=crop"
      4.7 800;
    sample "FIFA Ultimate Team Coins"
      "Build your dream squad with instant coin delivery."
      14.99 "Coins" "Xbox"
      "https://images.unsplash.com/photo-1543326727-cf6c39b4479f?q=80&w=1200&auto=format&fit=crop"
      4.6 1200;
    sample "Valorant Points Top-up"
      "Secure VP top-up for skins and battle passes."
      9.99 "Top-up" "PC"
      "https://images.unsplash.com/photo-1607252650355-f7fd0460ccdb?q=80&w=1200&auto=format&fit=crop"
      4.8 500 ].

(** [for s in samples: db["product"].insert_one(s)], as the database it
    leaves behind: an insertion that raises ends the loop. *)
Fixpoint insert_all (d : Database) (name : string) (l : list (gmap string value))
  : Database :=
  match l with
  | [] => d
  | s :: rest =>
      match insert_one d name s with
      | (Ok _, d') => insert_all d' name rest
      | (Raise _, d') => d'
      end
  end.

(** [@app.on_event("startup")] *)
Definition seed_products (db : option Database) : option Database :=
  match db with
  | None => None
  | Some d =>
      if count_documents d "product" >? 0 then Some d
      else Some (insert_all d "product" samples)
  end.

(** ** Concrete data for the examples *)

(** A stored document with the required fields only. *)
Definition minimal_doc : document :=
  {| _id := ObjectId_new 1;
     doc := <["title" := VStr "X"]> (<["price" := VFloat 1]>
            (<["category" := VStr "C"]> (<["platform" := VStr "P"]> ∅))) |}.

Definition minimal_out : ProductOut :=
  {| id_ := "000000000000000000000001";
     fields := {| title := "X"; description := None; price := 1;
                  category := "C"; platform := "P"; image_url := None;
                  rating := Some 4.5%Q; stock := 0 |} |}.

(** An empty database, and the database after start-up seeding. *)
Definition empty_db : Database := {| collections := ∅; oid_counter := 0 |}.

Definition seeded_db : Database := insert_all empty_db "product" samples.

(** The least request body that passes validation. *)
Definition minimal_body : gmap string value :=
  <["title" := VStr "X"]> (<["price" := VFloat 1]>
  (<["category" := VStr "C"]> (<["platform" := VStr "P"]> ∅))).

Definition not_found : exn := HTTPException 404 "Product not found".

(** The identifier names no document of the product collection: no stored
    [_id] is the ObjectId that the string denotes. *)
Definition matches_no_document (d : Database) (product_id : string) : Prop :=
  ∀ x, x ∈ db_getitem d "product" → ObjectId_init product_id ≠ Ok (_id x).

(** The identifier is not a well-formed ObjectId string. *)
Definition malformed (product_id : string) : Prop :=
  ObjectId_init product_id = Raise InvalidId.

(** A request body breaks a declared constraint of [ProductIn]: a required
    field is missing, the price is negative, a supplied rating is outside
    [0,5], or a supplied stock is negative. *)
Definition breaks_constraint (body : gmap string value) : Prop :=
  body !! "title" = None ∨ body !! "price" = None
  ∨ body !! "category" = None ∨ body !! "platform" = None
  ∨ (∃ p, body !! "price" ≫= float_field = Some p ∧ (p < 0)%Q)
  ∨ (∃ r, body !! "rating" ≫= float_field = Some r ∧ (r < 0 ∨ 5 < r)%Q)
  ∨ (∃ z, body !! "stock" ≫= int_field = Some z ∧ z < 0).

(** The invariants of a product that the declarations of [ProductIn] state. *)
Definition declared_invariants (p : ProductIn) : Prop :=
  (0 <= price p)%Q
  ∧ (∀ r, rating p = Some r → (0 <= r <= 5)%Q)
  ∧ 0 ≤ stock p.

Definition empty_title_body : gmap string value :=
  <["title" := VStr ""]> minimal_body.

Definition empty_title_product : ProductIn :=
  {| title := ""; description := None; price := 1; category := "C";
     platform := "P"; image_url := None; rating := Some 4.5%Q; stock := 100 |}.

(** A database whose product collection already holds one document. *)
Definition one_product_db : Database :=
  snd (insert_one empty_db "product" (doc minimal_doc)).

(** The lexicographic order of strings by character code, strict and not. *)
Definition string_lt (s t : string) : Prop := String.ltb s t = true.
Definition string_le (s t : string) : Prop := String.leb s t = true.

(** Some document of the product collection holds [v] under [key]. *)
Definition holds_under (d : Database) (key : string) (v : value) : Prop :=
  ∃ x, x ∈ db_getitem d "product" ∧ doc x !! key = Some v.

(** Every value stored under [key] is a string or null. *)
Definition string_valued (d : Database) (key : string) : Prop :=
  ∀ v, holds_under d key v → v = VNone ∨ ∃ s, v = VStr s.

(** [l] lists the distinct non-empty strings stored under [key], ascending
    and without repetition. *)
Definition distinct_sorted_listing (d : Database) (key : string) (l : list string)
  : Prop :=
  StronglySorted string_lt l
  ∧ NoDup l
  ∧ ∀ s, s ∈ l ↔ s ≠ "" ∧ holds_under d key (VStr s).

(** A product collection with repeated, empty, null and missing categories. *)
Definition ragged_db : Database :=
  {| collections :=
       {[ "product" :=
            [ {| _id := ObjectId_new 0;
                 doc := <["category" := VStr "Top-up"]> (<["platform" := VStr "PC"]> ∅) |};
              {| _id := ObjectId_new 1;
                 doc := <["category" := VStr ""]> (<["platform" := VNone]> ∅) |};
              {| _id := ObjectId_new 2;
                 doc := <["category" := VStr "Coins"]> (<["platform" := VStr "PC"]> ∅) |};
              {| _id := ObjectId_new 3;
                 doc := <["category" := VNone]> ∅ |};
              {| _id := ObjectId_new 4;
                 doc := <["category" := VStr "Top-up"]> (<["platform" := VStr ""]> ∅) |} ] ]};
     oid_counter := 5 |}.


(** The product that validation builds from [minimal_body]. *)
Definition minimal_product : ProductIn :=
  {| title := "X"; description := None; price := 1; category := "C";
     platform := "P"; image_url := None; rating := Some 4.5%Q; stock := 100 |}.

(** [t] contains [q] as a substring when the case of ASCII letters is
    ignored. *)
Definition contains_ignoring_case (q t : string) : Prop :=
  ∃ pre post,
    map lower (list_ascii_of_string t)
    = pre ++ map lower (list_ascii_of_string q) ++ post.

(** The string has no character with a special meaning in a pattern. *)
Definition plain (q : string) : Prop :=
  Forall (λ c, is_metachar c = false) (list_ascii_of_string q).

(** The title of the document is a string that contains [q], ignoring case. *)
Definition title_contains (q : string) (x : document) : Prop :=
  ∃ t, doc x !! "title" = Some (VStr t) ∧ contains_ignoring_case q t.

(** The document passes the filter of an optional parameter: a parameter
    that is given and not empty must equal the stored string. *)
Definition field_is (key : string) (o : option string) (x : document) : Prop :=
  ∀ s, o = Some s → s ≠ "" → doc x !! key = Some (VStr s).

(** The first seeded product, as the service returns it. *)
Definition elden_ring_out : ProductOut :=
  {| id_ := "000000000000000000000000";
     fields :=
       {| title := "Elden Ring Runes";
          description := Some
            "Fast delivery of in-game currency to boost your journey across the Lands Between.";
          price := 19.99; category := "Currency"; platform := "PC";
          image_url := Some
            "https://images.unsplash.com/photo-1605901309584-818e25960a8f?q=80&w=1200&auto=format&fit=crop";
          rating := Some 4.9%Q; stock := 999 |} |}.

(** ** The liveness and connectivity routes *)

(** [GET /] *)
Definition read_root : gmap string string :=
  {[ "message" := "Gamers Heaven API running" ]}.

(** The dict that [test_database] returns. *)
Record Status : Type := {
  status_backend : string;
  status_database : string;
  status_collections : list string
}.

(** What the call [db.list_collection_names()] does: it returns the names,
    or raises an exception [e] whose [str(e)] is the message. *)
Inductive names_outcome : Type :=
| Names (names : list string)
| Fails (message : string).

(** [GET /test].  The status starts as "Not Available"; the [try] block
    overwrites the database entry, and the handler of [except Exception]
    overwrites it again with the first 80 characters of the message (the
    characters of a [string] are bytes, so the cut agrees with the source
    on ASCII messages). *)
Definition test_database (db : option Database) (listing : names_outcome) : Status :=
  let status := {| status_backend := "✅ Running";
                   status_database := "❌ Not Available";
                   status_collections := [] |} in
  match db with
  | None =>
      {| status_backend := status_backend status;
         status_database := "❌ Not Connected";
         status_collections := status_collections status |}
  | Some _ =>
      let status := {| status_backend := status_backend status;
                       status_database := "✅ Connected";
                       status_collections := status_collections status |} in
      match listing with
      | Names names =>
          {| status_backend := status_backend status;
             status_database := status_database status;
             status_collections := names |}
      | Fails message =>
          {| status_backend := status_backend status;
             status_database := "⚠️ " ++ substring 0 80 message;
             status_collections := status_collections status |}
      end
  end.

(** ** Further data for the examples *)

(** The keys of a stored document that [_doc_to_product] reads. *)
Definition product_keys : list string :=
  ["title"; "description"; "price"; "category"; "platform"; "image_url";
   "rating"; "stock"].

(** A stored document without a title. *)
Definition untitled_doc : document :=
  {| _id := ObjectId_new 2;
     doc := <["price" := VFloat 1]>
            (<["category" := VStr "C"]> (<["platform" := VStr "P"]> ∅)) |}.

(** A stored document whose rating is null. *)
Definition unrated_doc : document :=
  {| _id := ObjectId_new 3; doc := <["rating" := VNone]> (doc minimal_doc) |}.

(** [minimal_doc] with the time stamps a store adapter may add. *)
Definition stamped_doc : document :=
  {| _id := _id minimal_doc;
     doc := <["created_at" := VStr "2024-01-01"]>
            (<["updated_at" := VStr "2024-01-02"]> (doc minimal_doc)) |}.

(** The documents of [ragged_db] in another order, one more of them
    repeated. *)
Definition shuffled_db : Database :=
  {| collections :=
       {[ "product" :=
            [ {| _id := ObjectId_new 7;
                 doc := <["category" := VStr "Coins"]> (<["platform" := VStr "PC"]> ∅) |};
              {| _id := ObjectId_new 8;
                 doc := <["category" := VNone]> ∅ |};
              {| _id := ObjectId_new 9;
                 doc := <["category" := VStr "Top-up"]> (<["platform" := VStr ""]> ∅) |};
              {| _id := ObjectId_new 10;
                 doc := <["category" := VStr "Coins"]> (<["platform" := VNone]> ∅) |};
              {| _id := ObjectId_new 11;
                 doc := <["category" := VStr ""]> (<["platform" := VStr "PC"]> ∅) |} ] ]};
     oid_counter := 12 |}.

(** The two stores hold the same strings under [key]. *)
Definition same_strings (key : string) (d1 d2 : Database) : Prop :=
  ∀ s, holds_under d1 key (VStr s) ↔ holds_under d2 key (VStr s).

(** A store that holds a valid product document and one without a title. *)
Definition untitled_db : Database :=
  {| collections := {[ "product" := [minimal_doc; untitled_doc] ]};
     oid_counter := 3 |}.

(** A product collection in which one category is a number. *)
Definition mixed_db : Database :=
  {| collections :=
       {[ "product" :=
            [ {| _id := ObjectId_new 0; doc := <["category" := VStr "B"]> ∅ |};
              {| _id := ObjectId_new 1; doc := <["category" := VInt 5]> ∅ |};
              {| _id := ObjectId_new 2; doc := <["category" := VStr "A"]> ∅ |} ] ]};
     oid_counter := 3 |}.


(** * Properties *)

(** ** The document-to-product mapping *)

Lemma lift_Ok {A} (e : exn) (o : option A) (a : A) :
  lift e o = Ok a ↔ o = Some a.
Proof. destruct o; simpl; split; congruence. Qed.

Lemma ProductIn_init_Some t d p c pl i r s x :
  ProductIn_init t d p c pl i r s = Some x ↔
    required str_field t = Some (title x)
    ∧ with_default optional_str_field None d = Some (description x)
    ∧ required price_field p = Some (price x)
    ∧ required str_field c = Some (category x)
    ∧ required str_field pl = Some (platform x)
    ∧ with_default optional_str_field None i = Some (image_url x)
    ∧ with_default rating_field rating_default r = Some (rating x)
    ∧ with_default stock_field stock_default s = Some (stock x).
Proof.
  unfold ProductIn_init. split.
  - intros H. repeat (apply bind_Some in H as (? & ? & H)).
    inversion H; subst; simpl. repeat split; assumption.
  - intros (Ht & Hd & Hp & Hc & Hpl & Hi & Hr & Hs).
    rewrite Ht, Hd, Hp, Hc, Hpl, Hi, Hr, Hs. simpl. destruct x; reflexivity.
Qed.

Lemma doc_to_product_fields (x : document) (out : ProductOut) :
  _doc_to_product x = Ok out →
  ProductIn_init (Some (doc_get x "title")) (Some (doc_get x "description"))
    (Some (doc_get x "price")) (Some (doc_get x "category"))
    (Some (doc_get x "platform")) (Some (doc_get x "image_url"))
    (Some (doc_get_default x "rating" (VFloat 4.5)))
    (Some (doc_get_default x "stock" (VInt 0))) = Some (fields out)
  ∧ id_ out = oid_hex (_id x).
Proof.
  unfold _doc_to_product, ProductOut_init. rewrite lift_Ok. intros H.
  apply bind_Some in H as (i & Hi & H).
  apply bind_Some in H as (f & Hf & H).
  simpl in Hi. inversion Hi; subst. inversion H; subst. auto.
Qed.

(** C1 (the code departs from the claim): for a stored document that omits
    [stock], the mapping yields stock [0], not the declared default [100];
    for one that omits [rating] it yields the declared default [4.5]. *)
Theorem doc_to_product_omitted_defaults (x : document) (out : ProductOut) :
  _doc_to_product x = Ok out →
  (doc x !! "stock" = None →
     stock (fields out) = 0 ∧ stock (fields out) ≠ stock_default)
  ∧ (doc x !! "rating" = None → rating (fields out) = rating_default).
Proof.
  intros H. apply doc_to_product_fields in H as [H _]. split; intros Hnone.
  - apply ProductIn_init_Some in H as (_ & _ & _ & _ & _ & _ & _ & H).
    unfold doc_get_default in H. rewrite Hnone in H. simpl in H.
    inversion H as [H0]. unfold stock_default. split; [reflexivity | lia].
  - apply ProductIn_init_Some in H as (_ & _ & _ & _ & _ & _ & H & _).
    unfold doc_get_default in H. rewrite Hnone in H.
    change (Some rating_default = Some (rating (fields out))) in H. congruence.
Qed.

Lemma doc_to_product_omitted_defaults_witness :
  _doc_to_product minimal_doc = Ok minimal_out
  ∧ stock (fields minimal_out) = 0
  ∧ rating (fields minimal_out) = rating_default.
Proof.
  assert (H : _doc_to_product minimal_doc = Ok minimal_out) by reflexivity.
  split; [exact H |].
  destruct (doc_to_product_omitted_defaults minimal_doc minimal_out H) as [Hs Hr].
  split; [apply Hs; reflexivity | apply Hr; reflexivity].
Defined.

(** ** Store availability *)

Lemma map_result_raises {A B} (f : A → result B) (l : list A) (e : exn) :
  map_result f l = Raise e → ∃ x, x ∈ l ∧ f x = Raise e.
Proof.
  induction l as [| x l IH]; simpl; [discriminate |].
  destruct (f x) eqn:Hx.
  - destruct (map_result f l) eqn:Hl; [discriminate |].
    intros [= ->]. destruct (IH eq_refl) as (y & Hy & Hfy).
    exists y. split; [right; assumption | assumption].
  - intros [= ->]. exists x. split; [left | assumption].
Qed.

Lemma doc_to_product_raises (x : document) (e : exn) :
  _doc_to_product x = Raise e → e = ValidationError.
Proof.
  unfold _doc_to_product, lift.
  destruct (ProductOut_init _ _ _ _ _ _ _ _ _); congruence.
Qed.

(** The handler of the listing never answers with a request validation
    error: that error comes from the parameter declarations alone. *)
Lemma list_products_not_request_validation db q c p (l : Z) :
  list_products db q c p l ≠ Raise RequestValidationError.
Proof.
  unfold list_products, get_documents, find_limit, database_unavailable.
  destruct db as [d |]; [| discriminate].
  destruct (filter_supported _); [| discriminate].
  intros H. apply map_result_raises in H as (x & _ & H).
  apply doc_to_product_raises in H. discriminate.
Qed.

(** C2 as amended: with no database, every request that passes the
    declared validation of its parameters fails with the handlers'
    "Database not available" error, a ServiceUnavailable, and nothing is
    stored; the check is the first step of each handler. *)
Theorem unavailable_store_is_reported :
  (∀ q c p raw (l : Z), limit_param raw = Ok l →
     route_list_products None q c p raw = Raise database_unavailable)
  ∧ (∀ product_id, get_product None product_id = Raise database_unavailable)
  ∧ get_categories None = Raise database_unavailable
  ∧ get_platforms None = Raise database_unavailable
  ∧ (∀ body product, ProductIn_of_json body = Some product →
       route_create_product None body = (Raise database_unavailable, None))
  ∧ error_kind (@Raise unit database_unavailable) = Some ServiceUnavailable.
Proof.
  repeat split.
  - intros q c p raw l H. unfold route_list_products. rewrite H. reflexivity.
  - intros body product H. unfold route_create_product. rewrite H. reflexivity.
Qed.

Lemma unavailable_store_is_reported_witness :
  route_list_products None (Some "elden") None None (Some 10)
    = Raise database_unavailable
  ∧ route_create_product None minimal_body = (Raise database_unavailable, None).
Proof.
  destruct unavailable_store_is_reported as (Hl & _ & _ & _ & Hc & _).
  split.
  - apply (Hl _ _ _ (Some 10) 10). reflexivity.
  - eapply Hc. reflexivity.
Defined.

(** C2 as stated fails: with no database, a listing with [limit = 0] and a
    creation with a negative price are answered with InvalidArgument, not
    with ServiceUnavailable. *)
Lemma unavailable_store_invalid_request :
  error_kind (route_list_products None None None None (Some 0))
    = Some InvalidArgument
  ∧ error_kind (fst (route_create_product None
                       (<["price" := VInt (-1)]> minimal_body)))
    = Some InvalidArgument.
Proof. split; reflexivity. Qed.

(** ** Validation of [limit] *)

Lemma limit_param_inside (l : Z) : 1 ≤ l ≤ 200 → limit_param (Some l) = Ok l.
Proof.
  intros [H1 H2]. unfold limit_param.
  apply Z.leb_le in H1, H2. rewrite H1, H2. reflexivity.
Qed.

Lemma limit_param_outside (l : Z) :
  l < 1 ∨ 200 < l → limit_param (Some l) = Raise RequestValidationError.
Proof.
  intros H. unfold limit_param.
  destruct (1 <=? l) eqn:H1; destruct (l <=? 200) eqn:H2; try reflexivity.
  apply Z.leb_le in H1, H2. lia.
Qed.

(** C5: a [limit] outside [1,200] is rejected with InvalidArgument whatever
    the other parameters and the state of the store; a [limit] inside is
    accepted, the handler runs with it and the answer is not an
    InvalidArgument; an omitted [limit] is the same request as [limit = 50]. *)
Theorem limit_is_validated db q c p :
  (∀ l, l < 1 ∨ 200 < l →
     route_list_products db q c p (Some l) = Raise RequestValidationError
     ∧ error_kind (route_list_products db q c p (Some l)) = Some InvalidArgument)
  ∧ (∀ l, 1 ≤ l ≤ 200 →
       route_list_products db q c p (Some l) = list_products db q c p l
       ∧ error_kind (route_list_products db q c p (Some l)) ≠ Some InvalidArgument)
  ∧ route_list_products db q c p None = route_list_products db q c p (Some 50)
  ∧ route_list_products db q c p None = list_products db q c p 50.
Proof.
  unfold route_list_products. repeat split.
  - rewrite limit_param_outside by assumption. reflexivity.
  - rewrite limit_param_outside by assumption. reflexivity.
  - rewrite limit_param_inside by assumption. reflexivity.
  - rewrite limit_param_inside by assumption.
    pose proof (list_products_not_request_validation db q c p l) as Hn.
    destruct (list_products db q c p l) as [a | e]; [discriminate |].
    destruct e as [code detail | | | | | | |]; simpl; try discriminate.
    + destruct code as [| n | n]; try discriminate.
      repeat (destruct n as [n | n |]; try discriminate).
    + congruence.
Qed.

Lemma limit_is_validated_witness :
  route_list_products (Some seeded_db) None None None (Some 0) = Raise RequestValidationError
  ∧ route_list_products (Some seeded_db) None None None (Some 201) = Raise RequestValidationError
  ∧ route_list_products (Some seeded_db) None None None (Some 200)
    = list_products (Some seeded_db) None None None 200.
Proof.
  destruct (limit_is_validated (Some seeded_db) None None None) as (Hout & Hin & _).
  split; [apply Hout; lia |]. split; [apply Hout; lia | apply Hin; lia].
Defined.

(** ** Empty parameters *)

(** C10: an empty [q], [category] or [platform] builds the same filter as
    an omitted one, so the request is answered as if the parameter had been
    left out. *)
Theorem empty_parameter_is_omitted db q c p (limit : option Z) :
  filter_q (Some "") c p = filter_q None c p
  ∧ filter_q q (Some "") p = filter_q q None p
  ∧ filter_q q c (Some "") = filter_q q c None
  ∧ route_list_products db (Some "") c p limit = route_list_products db None c p limit
  ∧ route_list_products db q (Some "") p limit = route_list_products db q None p limit
  ∧ route_list_products db q c (Some "") limit = route_list_products db q c None limit.
Proof.
  assert (Hq : filter_q (Some "") c p = filter_q None c p).
  { unfold filter_q. reflexivity. }
  assert (Hc : filter_q q (Some "") p = filter_q q None p).
  { unfold filter_q. reflexivity. }
  assert (Hp : filter_q q c (Some "") = filter_q q c None).
  { unfold filter_q. reflexivity. }
  unfold route_list_products, list_products.
  rewrite Hq, Hc, Hp. repeat split.
Qed.

(** ** Lookup by identifier *)

Lemma ObjectId_eqb_eq (a b : ObjectId) : ObjectId_eqb a b = true ↔ a = b.
Proof.
  destruct a as [x], b as [y]. unfold ObjectId_eqb. simpl.
  rewrite String.eqb_eq. split; congruence.
Qed.

Lemma find_one_by_id_Some (d : Database) (name : string) (oid : ObjectId) x :
  find_one_by_id d name oid = Some x → x ∈ db_getitem d name ∧ _id x = oid.
Proof.
  unfold find_one_by_id. intros H. apply find_some in H as [Hin Heq].
  split; [apply list_elem_of_In; assumption | apply ObjectId_eqb_eq; assumption].
Qed.

Lemma get_product_not_found (d : Database) (product_id : string) :
  malformed product_id ∨ matches_no_document d product_id →
  get_product (Some d) product_id = Raise not_found.
Proof.
  unfold get_product, malformed, matches_no_document, not_found.
  intros [H | H].
  - rewrite H. reflexivity.
  - destruct (ObjectId_init product_id) as [oid |] eqn:Hoid; [| reflexivity].
    destruct (find_one_by_id d "product" oid) as [x |] eqn:Hfind; [| reflexivity].
    apply find_one_by_id_Some in Hfind as [Hin Hid].
    exfalso. apply (H x Hin). congruence.
Qed.

(** C4: against an available store, [get] of an identifier that is
    malformed or that names no stored document fails with NotFound; and
    whatever the store and the identifier, [get] never lets the ObjectId
    parsing error out. *)
Theorem get_unknown_is_not_found :
  (∀ d product_id,
     malformed product_id ∨ matches_no_document d product_id →
     get_product (Some d) product_id = Raise not_found
     ∧ error_kind (get_product (Some d) product_id) = Some NotFound)
  ∧ (∀ db product_id, get_product db product_id ≠ Raise InvalidId).
Proof.
  split.
  - intros d product_id H. rewrite (get_product_not_found d product_id H).
    split; reflexivity.
  - intros db product_id. unfold get_product.
    destruct db as [d |]; [| discriminate].
    destruct (match ObjectId_init product_id with
              | Ok oid => find_one_by_id d "product" oid
              | Raise _ => None
              end) as [x |]; [| discriminate].
    intros H. apply doc_to_product_raises in H. discriminate.
Qed.

Lemma get_unknown_is_not_found_witness :
  get_product (Some seeded_db) "not-an-object-id" = Raise not_found
  ∧ get_product (Some seeded_db) "0123456789abcdefABCDEF00" = Raise not_found.
Proof.
  destruct get_unknown_is_not_found as [H _]. split.
  - apply H. left. reflexivity.
  - apply H. right. intros x Hx.
    apply list_elem_of_In in Hx. vm_compute in Hx.
    repeat (destruct Hx as [<- | Hx]; [discriminate |]). destruct Hx.
Defined.

(** ** Validation of the creation input *)

Lemma price_field_Some (v : value) (p : Q) :
  price_field v = Some p ↔ float_field v = Some p ∧ (0 <= p)%Q.
Proof.
  unfold price_field. destruct (float_field v) as [x |]; simpl.
  - destruct (Qle_bool 0 x) eqn:Hx.
    + apply Qle_bool_iff in Hx. split; [intros [= <-]; auto | intros [[= <-] _]; auto].
    + split; [discriminate |]. intros [[= <-] Hp].
      apply Qle_bool_iff in Hp. congruence.
  - split; [discriminate | intros [? _]; discriminate].
Qed.

Lemma rating_field_Some (v : value) (o : option Q) :
  rating_field v = Some o →
  match o with
  | None => v = VNone
  | Some r => float_field v = Some r ∧ (0 <= r <= 5)%Q
  end.
Proof.
  unfold rating_field.
  assert (Hgen : (x ← float_field v;
                  if Qle_bool 0 x && Qle_bool x 5 then Some (Some x) else None)
                 = Some o →
                 match o with
                 | None => v = VNone
                 | Some r => float_field v = Some r ∧ (0 <= r <= 5)%Q
                 end).
  { destruct (float_field v) as [x |]; simpl; [| discriminate].
    destruct (Qle_bool 0 x) eqn:H0; destruct (Qle_bool x 5) eqn:H5;
      simpl; try discriminate.
    intros [= <-]. apply Qle_bool_iff in H0, H5. auto. }
  destruct v; auto. intros [= <-]. reflexivity.
Qed.

Lemma stock_field_Some (v : value) (z : Z) :
  stock_field v = Some z ↔ int_field v = Some z ∧ 0 ≤ z.
Proof.
  unfold stock_field. destruct (int_field v) as [x |]; simpl.
  - destruct (0 <=? x) eqn:Hx.
    + apply Z.leb_le in Hx. split; [intros [= <-]; auto | intros [[= <-] _]; auto].
    + apply Z.leb_gt in Hx. split; [discriminate |]. intros [[= <-] Hp]. lia.
  - split; [discriminate | intros [? _]; discriminate].
Qed.

Lemma ProductIn_of_json_invariants (body : gmap string value) (p : ProductIn) :
  ProductIn_of_json body = Some p → declared_invariants p.
Proof.
  unfold ProductIn_of_json. intros H.
  apply ProductIn_init_Some in H as (_ & _ & Hp & _ & _ & _ & Hr & Hs).
  unfold declared_invariants. repeat split.
  - unfold required in Hp. apply bind_Some in Hp as (v & _ & Hp).
    apply price_field_Some in Hp. tauto.
  - destruct (body !! "rating") as [v |]; simpl in Hr.
    + apply rating_field_Some in Hr. rewrite H in Hr. tauto.
    + unfold rating_default in Hr. injection Hr as Hr. rewrite H in Hr.
      injection Hr as <-. vm_compute. discriminate.
  - destruct (body !! "rating") as [v |]; simpl in Hr.
    + apply rating_field_Some in Hr. rewrite H in Hr. tauto.
    + unfold rating_default in Hr. injection Hr as Hr. rewrite H in Hr.
      injection Hr as <-. vm_compute. discriminate.
  - destruct (body !! "stock") as [v |]; simpl in Hs.
    + apply stock_field_Some in Hs. tauto.
    + injection Hs as <-. unfold stock_default. lia.
Qed.

Lemma breaks_constraint_rejected (body : gmap string value) :
  breaks_constraint body → ProductIn_of_json body = None.
Proof.
  intros H. destruct (ProductIn_of_json body) as [p |] eqn:Hp; [| reflexivity].
  exfalso. pose proof (ProductIn_of_json_invariants body p Hp) as (Ip & Ir & Is).
  unfold ProductIn_of_json in Hp.
  apply ProductIn_init_Some in Hp as (Ht & _ & Hpr & Hc & Hpl & _ & Hr & Hs).
  unfold required in *.
  destruct H as [H | [H | [H | [H | [H | [H | H]]]]]].
  - rewrite H in Ht. discriminate.
  - rewrite H in Hpr. discriminate.
  - rewrite H in Hc. discriminate.
  - rewrite H in Hpl. discriminate.
  - destruct H as (x & Hx & Hneg).
    apply bind_Some in Hpr as (v & Hv & Hpr). rewrite Hv in Hx. simpl in Hx.
    apply price_field_Some in Hpr as [Hf _].
    assert (x = price p) as -> by congruence.
    exact (Qlt_not_le _ _ Hneg Ip).
  - destruct H as (x & Hx & Hout).
    destruct (body !! "rating") as [v |]; simpl in Hx, Hr; [| discriminate].
    apply rating_field_Some in Hr. destruct (rating p) as [r |] eqn:Hrp.
    + destruct Hr as [Hf _]. assert (x = r) as -> by congruence.
      destruct (Ir r eq_refl) as [Hlo Hhi].
      destruct Hout as [Hout | Hout];
        [exact (Qlt_not_le _ _ Hout Hlo) | exact (Qlt_not_le _ _ Hout Hhi)].
    + subst v. discriminate.
  - destruct H as (x & Hx & Hneg).
    destruct (body !! "stock") as [v |]; simpl in Hx, Hs; [| discriminate].
    apply stock_field_Some in Hs as [Hi _]. assert (x = stock p) by congruence. lia.
Qed.

(** C3 as amended: the body of a creation request is validated against
    the declared constraints before the handler runs.  A body that misses
    a required field, has a negative price, a rating outside [0,5] or a
    negative stock is rejected with InvalidArgument and the store is left
    as it was; a body that is accepted yields a product that satisfies the
    price, rating and stock invariants.  The title only has to be present. *)
Theorem create_validates_input db body :
  (breaks_constraint body →
     route_create_product db body = (Raise RequestValidationError, db)
     ∧ error_kind (fst (route_create_product db body)) = Some InvalidArgument)
  ∧ (∀ product, ProductIn_of_json body = Some product →
       declared_invariants product
       ∧ route_create_product db body = create_product db product).
Proof.
  unfold route_create_product. split.
  - intros H. rewrite (breaks_constraint_rejected body H). split; reflexivity.
  - intros product H. rewrite H. split; [| reflexivity].
    exact (ProductIn_of_json_invariants body product H).
Qed.

Lemma create_validates_input_witness :
  route_create_product (Some seeded_db) (<["price" := VInt (-1)]> minimal_body)
    = (Raise RequestValidationError, Some seeded_db)
  ∧ route_create_product (Some seeded_db) (<["rating" := VFloat 5.5]> minimal_body)
    = (Raise RequestValidationError, Some seeded_db)
  ∧ route_create_product (Some seeded_db) (<["stock" := VInt (-3)]> minimal_body)
    = (Raise RequestValidationError, Some seeded_db).
Proof.
  split; [| split].
  - apply (create_validates_input (Some seeded_db)).
    unfold breaks_constraint. do 4 right. left. exists (inject_Z (-1)).
    split; reflexivity.
  - apply (create_validates_input (Some seeded_db)).
    unfold breaks_constraint. do 5 right. left. exists 5.5%Q.
    split; [reflexivity | right; reflexivity].
  - apply (create_validates_input (Some seeded_db)).
    unfold breaks_constraint. do 6 right. exists (-3).
    split; [reflexivity | lia].
Defined.

(** C3 as stated fails: a body with an empty title passes validation, the
    creation succeeds and the product is stored. *)
Lemma create_accepts_empty_title :
  ProductIn_of_json empty_title_body = Some empty_title_product
  ∧ fst (route_create_product (Some empty_db) empty_title_body)
    = Ok "000000000000000000000000"
  ∧ snd (route_create_product (Some empty_db) empty_title_body)
    = Some {| collections :=
                {[ "product" := [ {| _id := ObjectId_new 0;
                                     doc := model_dump empty_title_product |} ] ]};
              oid_counter := 1 |}.
Proof. repeat split; vm_compute; reflexivity. Qed.

(** ** Seeding *)

Lemma hex_digit_inj (a b : N) :
  (a < 16)%N → (b < 16)%N → hex_digit a = hex_digit b → a = b.
Proof.
  intros Ha Hb H. apply (f_equal N_of_ascii) in H. unfold hex_digit in H.
  destruct (a <? 10)%N eqn:Ea; destruct (b <? 10)%N eqn:Eb;
    rewrite !N_ascii_embedding in H by lia;
    try apply N.ltb_lt in Ea; try apply N.ltb_lt in Eb;
    try apply N.ltb_ge in Ea; try apply N.ltb_ge in Eb; lia.
Qed.

Lemma hex_digits_le_inj (k : nat) (a b : N) :
  hex_digits_le k a = hex_digits_le k b →
  (a mod 16 ^ N.of_nat k = b mod 16 ^ N.of_nat k)%N.
Proof.
  revert a b. induction k as [| k IH]; intros a b H.
  - simpl. rewrite !N.mod_1_r. reflexivity.
  - simpl in H. injection H as Hd Hrest.
    apply hex_digit_inj in Hd; try (apply N.mod_lt; discriminate).
    apply IH in Hrest.
    rewrite Nat2N.inj_succ, N.pow_succ_r', !N.Div0.mod_mul_r.
    rewrite Hd, Hrest. reflexivity.
Qed.

(** Two counters draw the same ObjectId only if they agree on the twelve
    bytes of the id. *)
Lemma ObjectId_new_inj (a b : N) :
  ObjectId_new a = ObjectId_new b → (a mod 2 ^ 96 = b mod 2 ^ 96)%N.
Proof.
  intros H. apply (f_equal oid_hex) in H.
  unfold ObjectId_new in H. cbn [oid_hex] in H.
  apply (f_equal list_ascii_of_string) in H.
  rewrite !list_ascii_of_string_of_list_ascii in H.
  apply rev_inj, hex_digits_le_inj in H. exact H.
Qed.

Lemma mod_offset_distinct (c0 : N) (j m : nat) :
  (j < m)%nat → (N.of_nat m < 2 ^ 96)%N →
  ((c0 + N.of_nat j) mod 2 ^ 96 ≠ (c0 + N.of_nat m) mod 2 ^ 96)%N.
Proof.
  intros Hjm Hm H.
  pose proof (N.div_mod (c0 + N.of_nat j) (2 ^ 96)) as Hj.
  pose proof (N.div_mod (c0 + N.of_nat m) (2 ^ 96)) as Hm'.
  rewrite H in Hj.
  change (2 ^ 96)%N with 79228162514264337593543950336%N in *.
  specialize (Hj ltac:(discriminate)). specialize (Hm' ltac:(discriminate)).
  lia.
Qed.

(** What a successful insertion does. *)
Lemma insert_one_Ok (d d' : Database) (name : string) (fs : gmap string value)
    (oid : ObjectId) :
  insert_one d name fs = (Ok oid, d') →
  oid = ObjectId_new (oid_counter d)
  ∧ bson_encodable fs = true
  ∧ (∀ x, x ∈ db_getitem d name → _id x ≠ oid)
  ∧ db_getitem d' name = db_getitem d name ++ [{| _id := oid; doc := fs |}]
  ∧ (∀ other, name ≠ other → db_getitem d' other = db_getitem d other)
  ∧ oid_counter d' = ((oid_counter d + 1) mod 2 ^ 96)%N.
Proof.
  unfold insert_one.
  destruct (bson_encodable fs); simpl; [| discriminate].
  destruct (existsb _ _) eqn:Hdup; [discriminate |].
  intros [= <- <-]. split; [reflexivity |]. split; [reflexivity |].
  split; [| split; [| split]].
  - intros x Hx Heq.
    assert (Hex : existsb (λ y, ObjectId_eqb (_id y) (ObjectId_new (oid_counter d)))
                    (db_getitem d name) = true).
    { apply existsb_exists. exists x.
      split; [apply list_elem_of_In; exact Hx | apply ObjectId_eqb_eq; exact Heq]. }
    congruence.
  - unfold db_getitem at 1. simpl. rewrite lookup_insert_eq. reflexivity.
  - intros other Hne. unfold db_getitem. simpl.
    rewrite lookup_insert_ne by exact Hne. reflexivity.
  - reflexivity.
Qed.

(** A failed insertion leaves every collection as it was. *)
Lemma insert_one_Raise (d d' : Database) (name : string) (fs : gmap string value)
    (e : exn) :
  insert_one d name fs = (Raise e, d') → collections d' = collections d.
Proof.
  unfold insert_one.
  destruct (negb (bson_encodable fs)); [intros [= _ <-]; reflexivity |].
  destruct (existsb _ _); [intros [= _ <-]; reflexivity | discriminate].
Qed.

(** An encodable document is inserted when the drawn ObjectId is not yet in
    the collection. *)
Lemma insert_one_succeeds (d : Database) (name : string) (fs : gmap string value) :
  bson_encodable fs = true →
  (∀ x, x ∈ db_getitem d name → _id x ≠ ObjectId_new (oid_counter d)) →
  ∃ d', insert_one d name fs = (Ok (ObjectId_new (oid_counter d)), d').
Proof.
  intros Henc Hfresh. unfold insert_one. rewrite Henc. simpl.
  destruct (existsb _ _) eqn:Hdup; [| eauto].
  apply existsb_exists in Hdup as (x & Hx & Heq).
  apply ObjectId_eqb_eq in Heq. apply list_elem_of_In in Hx.
  exfalso. exact (Hfresh x Hx Heq).
Qed.

(** Insertions in a row succeed, and store the documents in order, as long
    as the documents can be encoded and the ObjectIds of the collection
    were drawn by the counter less than [2^96] draws ago. *)
Lemma insert_all_docs (name : string) (l : list (gmap string value)) :
  ∀ (d : Database) (c0 : N) (m : nat),
    Forall (λ fs, bson_encodable fs = true) l →
    (oid_counter d mod 2 ^ 96 = (c0 + N.of_nat m) mod 2 ^ 96)%N →
    (∀ x, x ∈ db_getitem d name →
          ∃ j, (j < m)%nat
               ∧ ∀ c, ObjectId_new c = _id x →
                      (c mod 2 ^ 96 = (c0 + N.of_nat j) mod 2 ^ 96)%N) →
    (N.of_nat (m + length l) ≤ 2 ^ 96)%N →
    map doc (db_getitem (insert_all d name l) name)
    = map doc (db_getitem d name) ++ l.
Proof.
  induction l as [| fs l IH]; intros d c0 m Henc Hcounter Hids Hbound.
  - simpl. rewrite app_nil_r. reflexivity.
  - apply Forall_cons in Henc as [Hfs Henc]. cbn [insert_all].
    destruct (insert_one_succeeds d name fs Hfs) as [d' Hins].
    { intros x Hx Heq. destruct (Hids x Hx) as (j & Hj & Hres).
      symmetry in Heq. apply Hres in Heq. rewrite Hcounter in Heq.
      symmetry in Heq. revert Heq. apply mod_offset_distinct; [exact Hj |].
      simpl length in Hbound. lia. }
    rewrite Hins.
    apply insert_one_Ok in Hins as (_ & _ & _ & Hdocs & _ & Hnext).
    rewrite (IH d' c0 (S m)); [| exact Henc | | | simpl length in Hbound; lia].
    + rewrite Hdocs, map_app. cbn [map doc]. rewrite <- app_assoc. reflexivity.
    + rewrite Hnext, N.Div0.mod_mod, <- N.Div0.add_mod_idemp_l, Hcounter.
      rewrite N.Div0.add_mod_idemp_l. f_equal. lia.
    + intros x Hx. rewrite Hdocs in Hx. apply elem_of_app in Hx as [Hx | Hx].
      * destruct (Hids x Hx) as (j & Hj & Hres). exists j. split; [lia | exact Hres].
      * apply list_elem_of_singleton in Hx. subst x. exists m. split; [lia |].
        cbn [_id]. intros c Hc. apply ObjectId_new_inj in Hc.
        rewrite Hc. exact Hcounter.
Qed.

Lemma samples_encodable : Forall (λ fs, bson_encodable fs = true) samples.
Proof. repeat constructor. Qed.

(** Seeding an empty collection stores the samples. *)
Lemma insert_all_samples (d : Database) :
  db_getitem d "product" = [] →
  map doc (db_getitem (insert_all d "product" samples) "product") = samples.
Proof.
  intros Hempty.
  rewrite (insert_all_docs "product" samples d (oid_counter d) 0).
  - rewrite Hempty. reflexivity.
  - exact samples_encodable.
  - rewrite N.add_0_r. reflexivity.
  - intros x Hx. rewrite Hempty in Hx. apply elem_of_nil in Hx. destruct Hx.
  - vm_compute. discriminate.
Qed.

(** C9: start-up against a reachable store with an empty product
    collection inserts the four sample products and nothing else, so the
    collection then holds exactly these four documents, in order; against a
    collection that holds a document, start-up changes nothing, and so
    leaves the document count as it was. *)
Theorem seeding_inserts_samples_once (d : Database) :
  (db_getitem d "product" = [] →
     ∃ d', seed_products (Some d) = Some d'
           ∧ map doc (db_getitem d' "product") = samples
           ∧ count_documents d' "product" = 4)
  ∧ (db_getitem d "product" ≠ [] →
       seed_products (Some d) = Some d
       ∧ ∀ d', seed_products (Some d) = Some d' →
               count_documents d' "product" = count_documents d "product").
Proof.
  unfold seed_products, count_documents. split.
  - intros Hempty. rewrite Hempty. simpl.
    exists (insert_all d "product" samples).
    assert (Hdocs : map doc (db_getitem (insert_all d "product" samples) "product")
                    = samples).
    { exact (insert_all_samples d Hempty). }
    split; [reflexivity |]. split; [exact Hdocs |].
    rewrite <- (length_map doc), Hdocs. reflexivity.
  - intros Hne.
    assert (Hpos : (Z.of_nat (length (db_getitem d "product")) >? 0) = true).
    { destruct (db_getitem d "product"); [congruence |].
      apply Z.gtb_lt. simpl length. lia. }
    rewrite Hpos. split; [reflexivity |]. intros d' [= <-]. reflexivity.
Qed.

Lemma seeding_inserts_samples_once_witness :
  (∃ d', seed_products (Some empty_db) = Some d'
         ∧ map doc (db_getitem d' "product") = samples
         ∧ count_documents d' "product" = 4)
  ∧ seed_products (Some one_product_db) = Some one_product_db.
Proof.
  split.
  - apply (seeding_inserts_samples_once empty_db). reflexivity.
  - apply (seeding_inserts_samples_once one_product_db). vm_compute. discriminate.
Defined.

(** ** Distinct categories and platforms *)

Lemma ascii_compare_refl (a : ascii) : Ascii.compare a a = Eq.
Proof. unfold Ascii.compare. apply N.compare_refl. Qed.

Lemma ascii_compare_lt_trans (a b c : ascii) :
  Ascii.compare a b = Lt → Ascii.compare b c = Lt → Ascii.compare a c = Lt.
Proof. unfold Ascii.compare. rewrite !N.compare_lt_iff. apply N.lt_trans. Qed.

Lemma string_lt_trans (s t u : string) :
  string_lt s t → string_lt t u → string_lt s u.
Proof.
  unfold string_lt, String.ltb. revert t u.
  induction s as [| a s IH]; intros [| b t] [| c u]; simpl; try congruence.
  destruct (Ascii.compare a b) eqn:Hab; try discriminate;
    destruct (Ascii.compare b c) eqn:Hbc; try discriminate.
  - apply Ascii.compare_eq_iff in Hab, Hbc. subst.
    rewrite ascii_compare_refl. apply IH.
  - apply Ascii.compare_eq_iff in Hab. subst. rewrite Hbc. reflexivity.
  - apply Ascii.compare_eq_iff in Hbc. subst. rewrite Hab. reflexivity.
  - rewrite (ascii_compare_lt_trans a b c Hab Hbc). reflexivity.
Qed.

Lemma string_le_neq_lt (s t : string) : string_le s t → s ≠ t → string_lt s t.
Proof.
  unfold string_le, string_lt, String.leb, String.ltb.
  destruct (String.compare s t) eqn:H; try congruence.
  apply String.compare_eq_iff in H. congruence.
Qed.

Lemma insert_sorted_perm (s : string) (l : list string) :
  insert_sorted s l ≡ₚ s :: l.
Proof.
  induction l as [| t l IH]; simpl; [reflexivity |].
  destruct (String.leb s t); [reflexivity |].
  rewrite IH. apply Permutation_swap.
Qed.

Lemma sorted_perm (l : list string) : sorted l ≡ₚ l.
Proof.
  induction l as [| s l IH]; simpl; [reflexivity |].
  rewrite insert_sorted_perm, IH. reflexivity.
Qed.

Lemma insert_sorted_HdRel (a s : string) (l : list string) :
  string_le a s → HdRel string_le a l → HdRel string_le a (insert_sorted s l).
Proof.
  intros Has Hal. destruct l as [| t l]; simpl.
  - constructor. assumption.
  - destruct (String.leb s t); constructor; [assumption |].
    inversion Hal; assumption.
Qed.

Lemma insert_sorted_Sorted (s : string) (l : list string) :
  Sorted string_le l → Sorted string_le (insert_sorted s l).
Proof.
  induction 1 as [| t l Hl IH Ht]; simpl.
  - repeat constructor.
  - destruct (String.leb s t) eqn:Hst.
    + constructor; [constructor; assumption |]. constructor. exact Hst.
    + constructor; [assumption |].
      apply insert_sorted_HdRel; [| assumption].
      destruct (String.leb_total s t) as [H | H]; [congruence | exact H].
Qed.

Lemma sorted_Sorted (l : list string) : Sorted string_le (sorted l).
Proof.
  induction l as [| s l IH]; simpl; [constructor |].
  apply insert_sorted_Sorted. assumption.
Qed.

Lemma Sorted_NoDup_strict (l : list string) :
  Sorted string_le l → NoDup l → StronglySorted string_lt l.
Proof.
  intros Hs Hn. apply Sorted_StronglySorted.
  - intros s t u. apply string_lt_trans.
  - induction Hs as [| s l Hl IH Hhd]; [constructor |].
    apply NoDup_cons in Hn as [Hnotin Hn].
    constructor; [apply IH; assumption |].
    destruct Hhd as [| t l Hst]; constructor.
    apply string_le_neq_lt; [assumption |].
    intros ->. apply Hnotin. left.
Qed.

Lemma value_eqb_refl (v : value) : value_eqb v v = true.
Proof.
  destruct v; simpl.
  - reflexivity.
  - apply String.eqb_refl.
  - apply Z.eqb_refl.
  - apply Qeq_bool_iff. reflexivity.
Qed.

Lemma value_eqb_VStr (s : string) (v : value) :
  value_eqb (VStr s) v = true → v = VStr s.
Proof.
  destruct v; simpl; try discriminate.
  intros H. apply String.eqb_eq in H. congruence.
Qed.

Lemma dedup_subset (vs : list value) (v : value) : v ∈ dedup vs → v ∈ vs.
Proof.
  induction vs as [| w vs IH]; simpl; [trivial |].
  intros H. apply elem_of_cons in H as [-> | H]; [left |].
  apply list_elem_of_filter in H as [_ H]. right. apply IH. exact H.
Qed.

Lemma dedup_keeps_strings (vs : list value) (s : string) :
  VStr s ∈ vs → VStr s ∈ dedup vs.
Proof.
  induction vs as [| w vs IH]; simpl; [trivial |].
  intros H. destruct (value_eqb (VStr s) w) eqn:Heq.
  - apply value_eqb_VStr in Heq. subst. left.
  - apply elem_of_cons in H as [<- | H].
    + rewrite value_eqb_refl in Heq. discriminate.
    + right. apply list_elem_of_filter. split; [| apply IH; exact H].
      rewrite Heq. exact I.
Qed.

Lemma dedup_NoDup (vs : list value) : NoDup (dedup vs).
Proof.
  induction vs as [| w vs IH]; simpl; [constructor |].
  apply NoDup_cons. split; [| apply NoDup_filter; exact IH].
  intros H. apply list_elem_of_filter in H as [H _].
  rewrite value_eqb_refl in H. exact H.
Qed.

Lemma all_strings_Some (vs : list value) (l : list string) :
  all_strings vs = Some l ↔ vs = VStr <$> l.
Proof.
  revert l. induction vs as [| v vs IH]; intros l; simpl.
  - destruct l; simpl; split; congruence.
  - destruct v; try (split; [discriminate | destruct l; discriminate]).
    destruct (all_strings vs) as [l' |] eqn:Hvs; simpl.
    + pose proof (proj1 (IH l') eq_refl) as ->.
      split.
      * intros [= <-]. reflexivity.
      * destruct l as [| t l]; [discriminate |]. simpl. intros [= -> Hl].
        apply IH in Hl. congruence.
    + split; [discriminate |].
      destruct l as [| t l]; [discriminate |]. simpl. intros [= -> Hl].
      apply IH in Hl. discriminate.
Qed.

Lemma all_strings_total (vs : list value) :
  (∀ v, v ∈ vs → ∃ s, v = VStr s) → ∃ l, all_strings vs = Some l.
Proof.
  induction vs as [| v vs IH]; intros H; simpl; [eauto |].
  destruct (H v) as [s ->]; [left |].
  destruct IH as [l ->]; [| simpl; eauto].
  intros w Hw. apply H. right. exact Hw.
Qed.

Lemma holds_under_distinct (d : Database) (key : string) (v : value) :
  v ∈ distinct d "product" key → holds_under d key v.
Proof.
  unfold distinct, holds_under. intros H.
  apply dedup_subset, list_elem_of_omap in H. exact H.
Qed.

Lemma truthy_VStr (s : string) : truthy (VStr s) = true ↔ s ≠ "".
Proof.
  simpl. rewrite negb_true_iff. apply String.eqb_neq.
Qed.

#[local] Instance VStr_inj : Inj (=) (=) VStr.
Proof. intros s t H. congruence. Qed.

Lemma sorted_truthy_distinct (d : Database) (key : string) :
  string_valued d key →
  ∃ l, sorted_truthy (distinct d "product" key) = Ok l
       ∧ distinct_sorted_listing d key l.
Proof.
  intros Htyped. unfold sorted_truthy.
  set (kept := filter (λ c, truthy c = true) (distinct d "product" key)).
  destruct (all_strings_total kept) as [l Hl].
  { intros v Hv. apply list_elem_of_filter in Hv as [Htr Hv].
    apply holds_under_distinct, Htyped in Hv as [-> | Hv]; [discriminate | exact Hv]. }
  rewrite Hl. exists (sorted l). split; [reflexivity |].
  apply all_strings_Some in Hl.
  assert (Hnodup : NoDup l).
  { apply (NoDup_fmap_1 VStr). rewrite <- Hl. apply NoDup_filter, dedup_NoDup. }
  assert (Hnodup' : NoDup (sorted l)) by (rewrite sorted_perm; exact Hnodup).
  split; [apply Sorted_NoDup_strict; [apply sorted_Sorted | exact Hnodup'] |].
  split; [exact Hnodup' |].
  intros s. rewrite sorted_perm.
  rewrite <- (list_elem_of_fmap_inj VStr), <- Hl.
  unfold kept. rewrite list_elem_of_filter, truthy_VStr.
  split; intros [Hne Hs]; (split; [exact Hne |]).
  - apply holds_under_distinct. exact Hs.
  - unfold distinct. apply dedup_keeps_strings, list_elem_of_omap. exact Hs.
Qed.

(** C7 as amended: for a store whose category and platform values are
    strings or null, the two listings succeed, and each returns the distinct non-empty
    strings stored under its field, in strictly ascending lexicographic
    order: no entry is repeated, none is empty, null is left out. *)
Theorem distinct_listings_sorted (d : Database) :
  string_valued d "category" → string_valued d "platform" →
  ∃ cats plats,
    get_categories (Some d) = Ok cats
    ∧ distinct_sorted_listing d "category" cats
    ∧ get_platforms (Some d) = Ok plats
    ∧ distinct_sorted_listing d "platform" plats.
Proof.
  intros Hc Hp. unfold get_categories, get_platforms.
  destruct (sorted_truthy_distinct d "category" Hc) as (cats & Ec & Lc).
  destruct (sorted_truthy_distinct d "platform" Hp) as (plats & Ep & Lp).
  exists cats, plats. auto.
Qed.

Lemma ragged_db_string_valued (key : string) :
  key = "category" ∨ key = "platform" → string_valued ragged_db key.
Proof.
  intros Hkey v (x & Hx & Hv). apply list_elem_of_In in Hx.
  change (In x (default [] (collections ragged_db !! "product"))) in Hx.
  cbn [ragged_db collections] in Hx. rewrite lookup_singleton_eq in Hx.
  simpl in Hx.
  destruct Hkey as [-> | ->];
    repeat (destruct Hx as [<- | Hx];
            [vm_compute in Hv; first [discriminate | injection Hv as <-; eauto] |]);
    destruct Hx.
Qed.

Lemma distinct_listings_sorted_witness :
  (∃ cats plats,
     get_categories (Some ragged_db) = Ok cats
     ∧ distinct_sorted_listing ragged_db "category" cats
     ∧ get_platforms (Some ragged_db) = Ok plats
     ∧ distinct_sorted_listing ragged_db "platform" plats)
  ∧ get_categories (Some ragged_db) = Ok ["Coins"; "Top-up"]
  ∧ get_platforms (Some ragged_db) = Ok ["PC"].
Proof.
  split; [| split; reflexivity].
  apply (distinct_listings_sorted ragged_db);
    apply ragged_db_string_valued; [left | right]; reflexivity.
Defined.

(** C7 as stated fails: on a store that holds the categories "B", 5 and
    "A", [sorted] cannot order a number and a string, and the listing of
    the categories fails with its [TypeError] instead of returning a sorted
    list. *)
Lemma listing_fails_on_mixed_values :
  distinct mixed_db "product" "category" = [VStr "B"; VInt 5; VStr "A"]
  ∧ get_categories (Some mixed_db) = Raise TypeError
  ∧ error_kind (get_categories (Some mixed_db)) = None.
Proof. repeat split. Qed.

(** ** Creation followed by lookup *)



Lemma string_of_list_ascii_length (l : list ascii) :
  String.length (string_of_list_ascii l) = length l.
Proof. induction l as [| c l IH]; simpl; congruence. Qed.
















(** A creation that the store refuses returns no identifier and stores
    nothing: a stock of [2^64] passes validation, but the document cannot
    be encoded and the insertion raises. *)
Lemma create_refuses_unencodable_stock :
  is_Some (ProductIn_of_json (<["stock" := VInt (2 ^ 64)]> minimal_body))
  ∧ route_create_product (Some empty_db) (<["stock" := VInt (2 ^ 64)]> minimal_body)
    = (Raise OverflowError, Some {| collections := ∅; oid_counter := 1 |}).
Proof. split; [eexists |]; vm_compute; reflexivity. Qed.

(** ** Search by title *)

Lemma match_here_literal (p s : list ascii) :
  match_here true (map Lit p) s = true ↔ ∃ post, map lower s = map lower p ++ post.
Proof.
  revert s. induction p as [| c p IH]; intros s; simpl.
  - split; eauto.
  - destruct s as [| x s]; simpl.
    + split; [discriminate | intros [post H]; discriminate].
    + rewrite andb_true_iff, Ascii.eqb_eq, IH. split.
      * intros [-> [post ->]]. eauto.
      * intros [post [= -> ->]]. eauto.
Qed.

Lemma match_anywhere_literal (p s : list ascii) :
  match_anywhere true (map Lit p) s = true
  ↔ ∃ pre post, map lower s = pre ++ map lower p ++ post.
Proof.
  induction s as [| x s IH]; simpl; rewrite orb_true_iff, match_here_literal.
  - split.
    + intros [[post H] | H]; [exists [], post; exact H | discriminate].
    + intros (pre & post & H). left.
      destruct pre; [exists post; exact H | discriminate].
  - rewrite IH. split.
    + intros [[post H] | (pre & post & H)].
      * exists [], post. exact H.
      * exists (lower x :: pre), post. simpl. congruence.
    + intros (pre & post & H). destruct pre as [| y pre].
      * left. exists post. exact H.
      * right. exists pre, post. simpl in H. congruence.
Qed.

Lemma regex_parse_plain (p : list ascii) :
  Forall (λ c, is_metachar c = false) p → regex_parse p = Some (map Lit p).
Proof.
  induction 1 as [| c p Hc _ IH]; simpl; [reflexivity |].
  rewrite IH, Hc. simpl.
  destruct (Ascii.eqb c ".") eqn:Hdot; [| reflexivity].
  apply Ascii.eqb_eq in Hdot. subst c. discriminate.
Qed.

(** For a plain pattern the case-insensitive search is substring
    containment ignoring case. *)
Lemma regex_search_plain (q t : string) :
  plain q → regex_search q "i" t = Some true ↔ contains_ignoring_case q t.
Proof.
  intros Hq. unfold regex_search, contains_ignoring_case.
  rewrite (regex_parse_plain _ Hq). simpl.
  rewrite <- match_anywhere_literal. split; congruence.
Qed.

Lemma set_if_truthy_lookup_ne key k mk o (f : gmap string condition) :
  key ≠ k → set_if_truthy key mk o f !! k = f !! k.
Proof.
  intros Hne. unfold set_if_truthy.
  destruct o as [s |]; [| reflexivity].
  destruct (truthy (VStr s)); [| reflexivity].
  apply lookup_insert_ne. exact Hne.
Qed.

Lemma set_if_truthy_Forall (P : string → condition → Prop) key mk o
    (f : gmap string condition) :
  f !! key = None →
  map_Forall P (set_if_truthy key mk o f)
  ↔ (∀ s, o = Some s → s ≠ "" → P key (mk s)) ∧ map_Forall P f.
Proof.
  intros Hnone. unfold set_if_truthy. destruct o as [s |].
  - destruct (truthy (VStr s)) eqn:Hs.
    + rewrite map_Forall_insert by exact Hnone. apply truthy_VStr in Hs.
      split; intros [H1 H2]; (split; [| exact H2]).
      * intros ? [= <-] _. exact H1.
      * apply H1; [reflexivity | exact Hs].
    + assert (s = "") as ->.
      { simpl in Hs. apply negb_false_iff, String.eqb_eq in Hs. exact Hs. }
      split; [| tauto]. intros H. split; [| exact H]. intros ? [= <-] Hne. congruence.
  - split; [| tauto]. intros H. split; [intros ? [=] | exact H].
Qed.

(** What a document has to satisfy to match the filter of a listing. *)
Lemma doc_matches_filter_q (P : string → condition → Prop) q c p :
  map_Forall P (filter_q q c p)
  ↔ (∀ s, q = Some s → s ≠ "" → P "title" (Regex s "i"))
    ∧ (∀ s, c = Some s → s ≠ "" → P "category" (Equals (VStr s)))
    ∧ (∀ s, p = Some s → s ≠ "" → P "platform" (Equals (VStr s))).
Proof.
  unfold filter_q.
  rewrite set_if_truthy_Forall
    by (rewrite !set_if_truthy_lookup_ne by discriminate; apply lookup_empty).
  rewrite set_if_truthy_Forall
    by (rewrite !set_if_truthy_lookup_ne by discriminate; apply lookup_empty).
  rewrite set_if_truthy_Forall by apply lookup_empty.
  split.
  - intros (Hp & Hc & Hq & _). auto.
  - intros (Hq & Hc & Hp). repeat split; auto. apply map_Forall_empty.
Qed.

Lemma condition_holds_Equals (s : string) (stored : option value) :
  condition_holds (Equals (VStr s)) stored = true ↔ stored = Some (VStr s).
Proof.
  destruct stored as [w |]; simpl; [| split; discriminate].
  split.
  - intros H. destruct w; simpl in H; try discriminate.
    apply String.eqb_eq in H. congruence.
  - intros [= ->]. apply String.eqb_refl.
Qed.

Lemma condition_holds_Regex (q : string) (stored : option value) :
  plain q →
  condition_holds (Regex q "i") stored = true
  ↔ ∃ t, stored = Some (VStr t) ∧ contains_ignoring_case q t.
Proof.
  intros Hq. destruct stored as [[| t | |] |]; simpl;
    try (split; [discriminate | intros (t' & [=] & _)]).
  rewrite bool_decide_eq_true, (regex_search_plain q t Hq).
  split; [eauto |]. intros (t' & [= <-] & H). exact H.
Qed.

Lemma doc_matches_plain (q : string) (c p : option string) (x : document) :
  plain q → q ≠ "" →
  doc_matches (filter_q (Some q) c p) x = true
  ↔ title_contains q x ∧ field_is "category" c x ∧ field_is "platform" p x.
Proof.
  intros Hplain Hne. unfold doc_matches.
  rewrite bool_decide_eq_true, doc_matches_filter_q.
  unfold title_contains, field_is.
  split.
  - intros (Hq & Hc & Hp). split; [| split].
    + apply (condition_holds_Regex q _ Hplain). apply Hq; [reflexivity | exact Hne].
    + intros s Hs Hs'. apply condition_holds_Equals. apply Hc; assumption.
    + intros s Hs Hs'. apply condition_holds_Equals. apply Hp; assumption.
  - intros (Hq & Hc & Hp). split; [| split].
    + intros s [= <-] _. apply (condition_holds_Regex q _ Hplain). exact Hq.
    + intros s Hs Hs'. apply condition_holds_Equals. apply Hc; assumption.
    + intros s Hs Hs'. apply condition_holds_Equals. apply Hp; assumption.
Qed.

Lemma filter_supported_plain (q : string) (c p : option string) :
  plain q → filter_supported (filter_q (Some q) c p) = true.
Proof.
  intros Hplain. unfold filter_supported.
  rewrite bool_decide_eq_true, doc_matches_filter_q.
  split; [| split; intros; reflexivity].
  intros s [= <-] _. simpl. rewrite bool_decide_eq_true.
  unfold regex_search. rewrite (regex_parse_plain _ Hplain). simpl. eauto.
Qed.

(** Where the search does what is meant: for a non-empty query [q] without
    pattern metacharacters and an accepted or omitted [limit], the listing
    maps to products the first [limit] documents, in store order, among
    those that match, and a document matches exactly when its title is a
    string that contains [q] ignoring case, as [lower] folds it, and it
    passes the category and platform filters. *)
Theorem query_searches_title (d : Database) (q : string) (c p : option string)
    (raw : option Z) (limit : Z) :
  plain q → q ≠ "" → limit_param raw = Ok limit →
  route_list_products (Some d) (Some q) c p raw
  = map_result _doc_to_product
      (take (Z.to_nat limit)
         (filter (λ x, doc_matches (filter_q (Some q) c p) x = true)
            (db_getitem d "product")))
  ∧ ∀ x, doc_matches (filter_q (Some q) c p) x = true
         ↔ title_contains q x ∧ field_is "category" c x ∧ field_is "platform" p x.
Proof.
  intros Hplain Hne Hlimit. split.
  - unfold route_list_products. rewrite Hlimit.
    unfold list_products, get_documents, find_limit.
    rewrite (filter_supported_plain q c p Hplain). reflexivity.
  - intros x. apply doc_matches_plain; assumption.
Qed.

Lemma query_searches_title_witness :
  (route_list_products (Some seeded_db) (Some "elden") None None None
   = map_result _doc_to_product
       (take (Z.to_nat 50)
          (filter (λ x, doc_matches (filter_q (Some "elden") None None) x = true)
             (db_getitem seeded_db "product")))
   ∧ ∀ x, doc_matches (filter_q (Some "elden") None None) x = true
          ↔ title_contains "elden" x
            ∧ field_is "category" None x ∧ field_is "platform" None x)
  ∧ route_list_products (Some seeded_db) (Some "elden") None None None
    = Ok [elden_ring_out].
Proof.
  split; [| reflexivity].
  apply (query_searches_title seeded_db "elden" None None None 50).
  - repeat constructor.
  - discriminate.
  - reflexivity.
Defined.

(** C6 (the code departs from the claim): the query is handed to the
    store as a pattern without being escaped, so the query ["e.d"] selects
    the product titled "Elden Ring Runes", although its title does not
    contain the three characters [e.d], in any case. *)
Lemma query_is_a_pattern :
  route_list_products (Some seeded_db) (Some "e.d") None None None
    = Ok [elden_ring_out]
  ∧ ¬ contains_ignoring_case "e.d" (title (fields elden_ring_out)).
Proof.
  split; [reflexivity |].
  intros H.
  apply (match_anywhere_literal (list_ascii_of_string "e.d")
           (list_ascii_of_string "Elden Ring Runes")) in H.
  vm_compute in H. discriminate.
Qed.

(** * Further properties of the code *)

(** ** The mapping of stored documents *)

Lemma doc_to_product_Ok_or_ValidationError (x : document) :
  (∃ out, _doc_to_product x = Ok out) ∨ _doc_to_product x = Raise ValidationError.
Proof.
  destruct (_doc_to_product x) as [out | e] eqn:H; [eauto |].
  apply doc_to_product_raises in H. subst. auto.
Qed.

(** X1: a stored document in which [title], [price], [category] or
    [platform] is missing or null is not mapped to a product: the
    construction of [ProductOut] raises a validation error. *)
Theorem doc_to_product_requires_fields (x : document) (key : string) :
  key ∈ ["title"; "price"; "category"; "platform"] →
  doc x !! key = None ∨ doc x !! key = Some VNone →
  _doc_to_product x = Raise ValidationError.
Proof.
  intros Hkey Hmissing.
  assert (Hget : doc_get x key = VNone).
  { unfold doc_get. destruct Hmissing as [-> | ->]; reflexivity. }
  destruct (doc_to_product_Ok_or_ValidationError x) as [[out H] | H]; [| exact H].
  exfalso. apply doc_to_product_fields in H as [H _].
  apply ProductIn_init_Some in H as (Ht & _ & Hp & Hc & Hpl & _).
  repeat (apply elem_of_cons in Hkey as [-> | Hkey]);
    [rewrite Hget in Ht | rewrite Hget in Hp | rewrite Hget in Hc
     | rewrite Hget in Hpl | apply elem_of_nil in Hkey; exact Hkey];
    discriminate.
Qed.

Lemma doc_to_product_requires_fields_witness :
  _doc_to_product untitled_doc = Raise ValidationError.
Proof.
  apply (doc_to_product_requires_fields untitled_doc "title").
  - left.
  - left. reflexivity.
Defined.

(** X2: the defaults of the mapping are for absent keys only.  A document
    that is mapped to a product and stores null under [rating] yields the
    rating null, not 4.5; it cannot store null under [stock]; and a
    description or image reference that is absent or null yields null. *)
Theorem doc_to_product_null_fields (x : document) (out : ProductOut) :
  _doc_to_product x = Ok out →
  (doc x !! "rating" = Some VNone → rating (fields out) = None)
  ∧ doc x !! "stock" ≠ Some VNone
  ∧ (doc_get x "description" = VNone → description (fields out) = None)
  ∧ (doc_get x "image_url" = VNone → image_url (fields out) = None).
Proof.
  intros H. apply doc_to_product_fields in H as [H _].
  apply ProductIn_init_Some in H as (_ & Hd & _ & _ & _ & Hi & Hr & Hs).
  unfold doc_get_default in Hr, Hs. simpl in Hd, Hi, Hr, Hs.
  split; [| split; [| split]].
  - intros Hnull. rewrite Hnull in Hr. simpl in Hr. congruence.
  - intros Hnull. rewrite Hnull in Hs. discriminate.
  - intros Hnull. rewrite Hnull in Hd. simpl in Hd. congruence.
  - intros Hnull. rewrite Hnull in Hi. simpl in Hi. congruence.
Qed.

Lemma doc_to_product_null_fields_witness :
  (∃ out, _doc_to_product unrated_doc = Ok out ∧ rating (fields out) = None)
  ∧ doc unrated_doc !! "stock" ≠ Some VNone.
Proof.
  assert (H : _doc_to_product unrated_doc
              = Ok {| id_ := "000000000000000000000003";
                      fields := {| title := "X"; description := None; price := 1;
                                   category := "C"; platform := "P";
                                   image_url := None; rating := None;
                                   stock := 0 |} |}) by reflexivity.
  destruct (doc_to_product_null_fields _ _ H) as (Hr & Hs & _).
  split; [| exact Hs]. eexists. split; [exact H |]. apply Hr. reflexivity.
Defined.

(** X3: the mapping reads the [_id] and the eight product keys and nothing
    else: two documents that agree on them are mapped alike, so keys that a
    writer adds beside them, such as time stamps, do not show. *)
Theorem doc_to_product_reads_product_keys (x y : document) :
  _id x = _id y →
  (∀ key, key ∈ product_keys → doc x !! key = doc y !! key) →
  _doc_to_product x = _doc_to_product y.
Proof.
  intros Hid Hkeys. unfold _doc_to_product, doc_get, doc_get_default.
  rewrite Hid.
  rewrite !(Hkeys "title"), !(Hkeys "description"), !(Hkeys "price"),
    !(Hkeys "category"), !(Hkeys "platform"), !(Hkeys "image_url"),
    !(Hkeys "rating"), !(Hkeys "stock");
    first [reflexivity | unfold product_keys; set_solver].
Qed.

Lemma doc_to_product_reads_product_keys_witness :
  _doc_to_product stamped_doc = _doc_to_product minimal_doc.
Proof.
  apply (doc_to_product_reads_product_keys stamped_doc minimal_doc).
  - reflexivity.
  - intros key Hkey. unfold product_keys in Hkey.
    repeat (apply elem_of_cons in Hkey as [-> | Hkey]; [reflexivity |]).
    apply elem_of_nil in Hkey. destruct Hkey.
Defined.

(** ** What the service returns *)

Lemma ProductIn_init_invariants t d p c pl i r s x :
  ProductIn_init t d p c pl i r s = Some x → declared_invariants x.
Proof.
  intros H.
  apply ProductIn_init_Some in H as (_ & _ & Hp & _ & _ & _ & Hr & Hs).
  unfold declared_invariants. split; [| split].
  - unfold required in Hp. apply bind_Some in Hp as (v & _ & Hp).
    apply price_field_Some in Hp. tauto.
  - intros q Hq. destruct r as [v |]; simpl in Hr.
    + apply rating_field_Some in Hr. rewrite Hq in Hr. tauto.
    + unfold rating_default in Hr. injection Hr as Hr. rewrite Hq in Hr.
      injection Hr as <-. split; vm_compute; discriminate.
  - destruct s as [v |]; simpl in Hs.
    + apply stock_field_Some in Hs. tauto.
    + injection Hs as <-. unfold stock_default. lia.
Qed.

Lemma map_result_Ok {A B} (f : A → result B) (l : list A) (ys : list B) :
  map_result f l = Ok ys → Forall2 (λ x y, f x = Ok y) l ys.
Proof.
  revert ys. induction l as [| x l IH]; simpl; intros ys.
  - intros [= <-]. constructor.
  - destruct (f x) as [y |] eqn:Hx; [| discriminate].
    destruct (map_result f l) as [ys' |]; [| discriminate].
    intros [= <-]. constructor; [exact Hx | apply IH; reflexivity].
Qed.

(** X4: every product that leaves the service satisfies the declared
    invariants: whatever the store holds, a product returned by the
    mapping, by [get] or in a listing has a price of at least 0, a rating
    that is null or in [0,5], and a stock of at least 0. *)
Theorem returned_products_satisfy_invariants :
  (∀ x out, _doc_to_product x = Ok out → declared_invariants (fields out))
  ∧ (∀ db product_id out,
       get_product db product_id = Ok out → declared_invariants (fields out))
  ∧ (∀ db q c p limit outs,
       list_products db q c p limit = Ok outs →
       Forall (λ out, declared_invariants (fields out)) outs).
Proof.
  assert (Hmap : ∀ x out, _doc_to_product x = Ok out →
                          declared_invariants (fields out)).
  { intros x out H. apply doc_to_product_fields in H as [H _].
    exact (ProductIn_init_invariants _ _ _ _ _ _ _ _ _ H). }
  split; [exact Hmap |]. split.
  - intros db product_id out. unfold get_product.
    destruct db as [d |]; [| discriminate].
    destruct (match ObjectId_init product_id with
              | Ok oid => find_one_by_id d "product" oid
              | Raise _ => None
              end) as [x |]; [apply Hmap | discriminate].
  - intros db q c p limit outs. unfold list_products.
    destruct db as [d |]; [| discriminate].
    destruct (get_documents d "product" (filter_q q c p) limit) as [docs |];
      [| discriminate].
    intros H. apply map_result_Ok in H.
    induction H as [| x out docs' outs' Hx _ IH]; constructor; eauto.
Qed.

Lemma returned_products_satisfy_invariants_witness :
  declared_invariants (fields minimal_out)
  ∧ Forall (λ out, declared_invariants (fields out)) [elden_ring_out].
Proof.
  destruct returned_products_satisfy_invariants as (Hmap & _ & Hlist).
  split.
  - apply (Hmap minimal_doc). reflexivity.
  - apply (Hlist (Some seeded_db) (Some "elden") None None 50). reflexivity.
Defined.

(** ** More on lookup by identifier *)

Lemma ObjectId_init_Ok (s : string) (oid : ObjectId) :
  ObjectId_init s = Ok oid → oid_hex oid = lower_string s.
Proof.
  unfold ObjectId_init. destruct (_ && _); [| discriminate].
  intros [= <-]. reflexivity.
Qed.

Lemma ObjectId_init_Raise (s : string) (e : exn) :
  ObjectId_init s = Raise e → e = InvalidId.
Proof. unfold ObjectId_init. destruct (_ && _); congruence. Qed.

(** X5: a product returned by [get] is the mapping of a stored document
    whose [_id] is the ObjectId that the requested identifier denotes, and
    the identifier it carries is the requested one in lower case. *)
Theorem get_returns_stored_document (d : Database) (product_id : string)
    (out : ProductOut) :
  get_product (Some d) product_id = Ok out →
  ∃ x, x ∈ db_getitem d "product"
       ∧ ObjectId_init product_id = Ok (_id x)
       ∧ _doc_to_product x = Ok out
       ∧ id_ out = lower_string product_id.
Proof.
  unfold get_product.
  destruct (ObjectId_init product_id) as [oid |] eqn:Hoid; [| discriminate].
  destruct (find_one_by_id d "product" oid) as [x |] eqn:Hfind; [| discriminate].
  intros H. apply find_one_by_id_Some in Hfind as [Hin Hid].
  exists x. split; [exact Hin |]. split; [congruence |]. split; [exact H |].
  apply doc_to_product_fields in H as [_ ->]. rewrite Hid.
  apply ObjectId_init_Ok. exact Hoid.
Qed.

Lemma get_returns_stored_document_witness :
  ∃ x, x ∈ db_getitem seeded_db "product"
       ∧ ObjectId_init "000000000000000000000000" = Ok (_id x)
       ∧ _doc_to_product x = Ok elden_ring_out
       ∧ id_ elden_ring_out = lower_string "000000000000000000000000".
Proof.
  apply (get_returns_stored_document seeded_db "000000000000000000000000").
  reflexivity.
Defined.

(** X6: with a store available, [get] answers NotFound only for an
    identifier that is malformed or names no stored document; a
    well-formed identifier of a stored document is never reported missing. *)
Theorem get_not_found_only_if_unknown (d : Database) (product_id : string) :
  get_product (Some d) product_id = Raise not_found →
  malformed product_id ∨ matches_no_document d product_id.
Proof.
  unfold get_product, malformed, matches_no_document, not_found.
  destruct (ObjectId_init product_id) as [oid | e] eqn:Hoid.
  - destruct (find_one_by_id d "product" oid) as [x |] eqn:Hfind.
    + intros H. apply doc_to_product_raises in H. discriminate.
    + intros _. right. intros x Hx [= ->].
      unfold find_one_by_id in Hfind. apply list_elem_of_In in Hx.
      pose proof (find_none _ _ Hfind x Hx) as Hne. simpl in Hne.
      assert (Heq : ObjectId_eqb (_id x) (_id x) = true)
        by (apply ObjectId_eqb_eq; reflexivity).
      congruence.
  - intros _. left. apply ObjectId_init_Raise in Hoid. congruence.
Qed.

Lemma get_not_found_only_if_unknown_witness :
  malformed "000000000000000000000009"
  ∨ matches_no_document seeded_db "000000000000000000000009".
Proof.
  apply (get_not_found_only_if_unknown seeded_db "000000000000000000000009").
  reflexivity.
Defined.

Lemma lower_involutive (c : ascii) : lower (lower c) = lower c.
Proof. destruct c as [[] [] [] [] [] [] [] []]; reflexivity. Qed.

Lemma is_hex_digit_lower (c : ascii) : is_hex_digit (lower c) = is_hex_digit c.
Proof. destruct c as [[] [] [] [] [] [] [] []]; reflexivity. Qed.

Lemma forallb_hex_lower (l : list ascii) :
  forallb is_hex_digit (map lower l) = forallb is_hex_digit l.
Proof.
  induction l as [| c l IH]; simpl; [reflexivity |].
  rewrite is_hex_digit_lower, IH. reflexivity.
Qed.

Lemma map_lower_involutive (l : list ascii) :
  map lower (map lower l) = map lower l.
Proof.
  induction l as [| c l IH]; simpl; [reflexivity |].
  rewrite lower_involutive, IH. reflexivity.
Qed.

Lemma list_ascii_of_string_length (s : string) :
  length (list_ascii_of_string s) = String.length s.
Proof. induction s as [| c s IH]; simpl; congruence. Qed.

Lemma ObjectId_init_lower (s : string) :
  ObjectId_init (lower_string s) = ObjectId_init s.
Proof.
  unfold ObjectId_init, lower_string.
  rewrite string_of_list_ascii_length, length_map.
  rewrite list_ascii_of_string_of_list_ascii.
  rewrite list_ascii_of_string_length, forallb_hex_lower, map_lower_involutive.
  reflexivity.
Qed.

(** X7: [get] does not distinguish the case of the hexadecimal digits of an
    identifier: the request for an identifier and the request for its
    lower-case spelling are answered alike, whatever the store. *)
Theorem get_ignores_identifier_case (db : option Database) (product_id : string) :
  get_product db (lower_string product_id) = get_product db product_id.
Proof.
  unfold get_product. rewrite ObjectId_init_lower. reflexivity.
Qed.

(** ** More on the validation of the creation input *)




(** ** The filter of a listing without a query *)

(** X9: without a query, the filter of a listing is the conjunction of the
    category and the platform condition, each an exact comparison with the
    stored string; when neither is given, or both are empty, every
    document matches. *)
Theorem filters_are_exact_and_conjunctive (c p : option string) (x : document) :
  (doc_matches (filter_q None c p) x = true
   ↔ field_is "category" c x ∧ field_is "platform" p x)
  ∧ doc_matches (filter_q None None None) x = true
  ∧ doc_matches (filter_q (Some "") (Some "") (Some "")) x = true.
Proof.
  unfold doc_matches. rewrite !bool_decide_eq_true, !doc_matches_filter_q.
  unfold field_is. split; [| split].
  - split.
    + intros (_ & Hc & Hp). split; intros s Hs Hne;
        apply condition_holds_Equals; auto.
    + intros (Hc & Hp). split; [discriminate |].
      split; intros s Hs Hne; apply condition_holds_Equals; auto.
  - repeat split; discriminate.
  - repeat split; intros s [= <-] Hne; congruence.
Qed.

(** ** More on seeding *)

Lemma count_documents_seeded (d : Database) :
  (count_documents d "product" >? 0) = false →
  count_documents (insert_all d "product" samples) "product" = 4.
Proof.
  unfold count_documents. intros Hcount.
  assert (Hempty : db_getitem d "product" = []).
  { destruct (db_getitem d "product"); [reflexivity |].
    rewrite Z.gtb_ltb in Hcount. apply Z.ltb_ge in Hcount.
    simpl length in Hcount. lia. }
  rewrite <- (length_map doc), (insert_all_samples d Hempty). reflexivity.
Qed.

(** X10: start-up seeding is idempotent: seeding a store that has been
    seeded changes nothing, whatever the store held before and also when
    there is no store. *)
Theorem seeding_is_idempotent (db : option Database) :
  seed_products (seed_products db) = seed_products db.
Proof.
  destruct db as [d |]; [| reflexivity]. unfold seed_products.
  destruct (count_documents d "product" >? 0) eqn:Hcount.
  - rewrite Hcount. reflexivity.
  - assert (Hseeded : (count_documents (insert_all d "product" samples) "product"
                       >? 0) = true).
    { rewrite (count_documents_seeded d Hcount). reflexivity. }
    rewrite Hseeded. reflexivity.
Qed.

(** ** More on the distinct listings *)

Lemma string_compare_refl (s : string) : String.compare s s = Eq.
Proof.
  induction s as [| c s IH]; simpl; [reflexivity |].
  rewrite ascii_compare_refl. exact IH.
Qed.

Lemma string_lt_irrefl (s : string) : ¬ string_lt s s.
Proof.
  unfold string_lt, String.ltb. rewrite string_compare_refl. discriminate.
Qed.

Lemma StronglySorted_lt_head (a : string) (l : list string) (s : string) :
  StronglySorted string_lt (a :: l) → s ∈ a :: l → s = a ∨ string_lt a s.
Proof.
  intros Hs Hin. apply StronglySorted_inv in Hs as [_ Hall].
  apply elem_of_cons in Hin as [-> | Hin]; [left; reflexivity |].
  right. rewrite List.Forall_forall in Hall. apply Hall.
  apply list_elem_of_In. exact Hin.
Qed.

(** A strictly ascending list is determined by its elements. *)
Lemma StronglySorted_lt_unique (l1 l2 : list string) :
  StronglySorted string_lt l1 → StronglySorted string_lt l2 →
  (∀ s, s ∈ l1 ↔ s ∈ l2) → l1 = l2.
Proof.
  revert l2. induction l1 as [| a l1 IH]; intros [| b l2] H1 H2 Hsame.
  - reflexivity.
  - exfalso. apply (elem_of_nil b), Hsame. left.
  - exfalso. apply (elem_of_nil a), Hsame. left.
  - assert (a = b) as <-.
    { destruct (StronglySorted_lt_head b l2 a H2) as [Hab | Hba];
        [apply Hsame; left | exact Hab |].
      destruct (StronglySorted_lt_head a l1 b H1) as [Hab | Hab];
        [apply Hsame; left | congruence |].
      exfalso. exact (string_lt_irrefl a (string_lt_trans a b a Hab Hba)). }
    f_equal. apply IH.
    + apply StronglySorted_inv in H1. tauto.
    + apply StronglySorted_inv in H2. tauto.
    + assert (Htail : ∀ (l l' : list string), StronglySorted string_lt (a :: l) →
                (∀ s, s ∈ a :: l ↔ s ∈ a :: l') → ∀ s, s ∈ l → s ∈ l').
      { intros l l' Hl Hll s Hs.
        assert (Hin : s ∈ a :: l') by (apply Hll; right; exact Hs).
        apply elem_of_cons in Hin as [-> | Hin]; [| exact Hin].
        exfalso. destruct (StronglySorted_lt_head a l a Hl) as [_ | Haa];
          [left | |].
        - apply StronglySorted_inv in Hl as [_ Hall].
          rewrite List.Forall_forall in Hall.
          apply (string_lt_irrefl a), Hall, list_elem_of_In. exact Hs.
        - exact (string_lt_irrefl a Haa). }
      intros s. split.
      * apply (Htail l1 l2 H1 Hsame).
      * apply (Htail l2 l1 H2). intros t. symmetry. apply Hsame.
Qed.

Lemma sorted_truthy_same_strings (d1 d2 : Database) (key : string) :
  string_valued d1 key → string_valued d2 key → same_strings key d1 d2 →
  sorted_truthy (distinct d1 "product" key)
  = sorted_truthy (distinct d2 "product" key).
Proof.
  intros Hv1 Hv2 Hsame.
  destruct (sorted_truthy_distinct d1 key Hv1) as (l1 & -> & Hs1 & _ & Hin1).
  destruct (sorted_truthy_distinct d2 key Hv2) as (l2 & -> & Hs2 & _ & Hin2).
  f_equal. apply StronglySorted_lt_unique; [assumption | assumption |].
  intros s. rewrite Hin1, Hin2, (Hsame s). reflexivity.
Qed.

(** X11: the category and platform listings depend only on which strings
    are stored under the field, not on the order of the documents, on how
    often a value occurs, or on documents that lack the field or hold null:
    two stores with string or null values that hold the same strings give
    the same listing. *)
Theorem listings_depend_on_stored_strings (d1 d2 : Database) :
  (string_valued d1 "category" → string_valued d2 "category" →
   same_strings "category" d1 d2 →
   get_categories (Some d1) = get_categories (Some d2))
  ∧ (string_valued d1 "platform" → string_valued d2 "platform" →
     same_strings "platform" d1 d2 →
     get_platforms (Some d1) = get_platforms (Some d2)).
Proof.
  split; intros Hv1 Hv2 Hsame; unfold get_categories, get_platforms;
    apply sorted_truthy_same_strings; assumption.
Qed.

Lemma holds_under_In (d : Database) (key : string) (v : value) :
  holds_under d key v
  ↔ In (Some v) (map (λ x, doc x !! key) (db_getitem d "product")).
Proof.
  unfold holds_under. rewrite in_map_iff. split.
  - intros (x & Hx & Hv). exists x. split; [exact Hv |].
    apply list_elem_of_In. exact Hx.
  - intros (x & Hv & Hx). exists x. split; [| exact Hv].
    apply list_elem_of_In. exact Hx.
Qed.

Lemma shuffled_db_string_valued (key : string) :
  key = "category" ∨ key = "platform" → string_valued shuffled_db key.
Proof.
  intros Hkey v Hv. apply holds_under_In in Hv.
  destruct Hkey as [-> | ->]; vm_compute in Hv;
    repeat (destruct Hv as [Hv | Hv];
            [first [discriminate | injection Hv as <-; eauto] |]);
    destruct Hv.
Qed.

Lemma listings_depend_on_stored_strings_witness :
  get_categories (Some ragged_db) = get_categories (Some shuffled_db).
Proof.
  apply (listings_depend_on_stored_strings ragged_db shuffled_db).
  - apply ragged_db_string_valued. left. reflexivity.
  - apply shuffled_db_string_valued. left. reflexivity.
  - intros s. rewrite !holds_under_In.
    change (In (Some (VStr s))
              [Some (VStr "Top-up"); Some (VStr ""); Some (VStr "Coins");
               Some VNone; Some (VStr "Top-up")]
            ↔ In (Some (VStr s))
                [Some (VStr "Coins"); Some VNone; Some (VStr "Top-up");
                 Some (VStr "Coins"); Some (VStr "")]).
    simpl. tauto.
Defined.

(** ** The connectivity probe *)

(** X12: the connectivity probe always reports the backend as running and
    never returns the "Not Available" text it starts from; it lists
    collections only together with the "Connected" text, and without a
    database it reports "Not Connected" and no collections. *)
Theorem test_database_status (db : option Database) (listing : names_outcome) :
  status_backend (test_database db listing) = "✅ Running"
  ∧ status_database (test_database db listing) ≠ "❌ Not Available"
  ∧ (status_collections (test_database db listing) ≠ [] →
     status_database (test_database db listing) = "✅ Connected")
  ∧ (db = None →
     status_database (test_database db listing) = "❌ Not Connected"
     ∧ status_collections (test_database db listing) = []).
Proof.
  destruct db as [d |]; [destruct listing as [names | message] |]; simpl;
    (split; [reflexivity |]); (split; [discriminate |]); split;
    try discriminate; try congruence; auto.
Qed.

Lemma test_database_status_witness :
  status_database (test_database (Some seeded_db) (Names ["product"]))
    = "✅ Connected"
  ∧ status_database (test_database None (Fails "timed out")) = "❌ Not Connected".
Proof.
  split.
  - apply (test_database_status (Some seeded_db) (Names ["product"])).
    discriminate.
  - apply (test_database_status None (Fails "timed out")). reflexivity.
Defined.

(** ** Listings over invalid documents *)

Lemma map_result_fails {A B} (f : A → result B) (l : list A) (x : A) (e : exn) :
  (∀ y e', f y = Raise e' → e' = e) → x ∈ l → f x = Raise e →
  map_result f l = Raise e.
Proof.
  intros Honly Hin Hx. induction l as [| y l IH]; simpl.
  - apply elem_of_nil in Hin. destruct Hin.
  - destruct (f y) as [z | e'] eqn:Hy.
    + apply elem_of_cons in Hin as [-> | Hin]; [congruence |].
      rewrite (IH Hin). reflexivity.
    + f_equal. exact (Honly y e' Hy).
Qed.

(** X13: a listing does not skip a document that the output model refuses:
    when one of the documents that the store hands to [list_products]
    fails the mapping, the whole listing fails with that validation error
    and no product is returned. *)
Theorem listing_fails_on_invalid_document (d : Database)
    (q c p : option string) (limit : Z) (docs : list document) (x : document) :
  get_documents d "product" (filter_q q c p) limit = Ok docs →
  x ∈ docs → _doc_to_product x = Raise ValidationError →
  list_products (Some d) q c p limit = Raise ValidationError.
Proof.
  intros Hdocs Hin Hx. unfold list_products. rewrite Hdocs.
  apply (map_result_fails _doc_to_product docs x); [| exact Hin | exact Hx].
  intros y e' Hy. apply doc_to_product_raises in Hy. exact Hy.
Qed.

Lemma listing_fails_on_invalid_document_witness :
  list_products (Some untitled_db) None None None 50 = Raise ValidationError.
Proof.
  apply (listing_fails_on_invalid_document untitled_db None None None 50
           [minimal_doc; untitled_doc] untitled_doc).
  - reflexivity.
  - right. left.
  - reflexivity.
Defined.

(** ** The answers of a lookup *)

(** X14: [get] has four answers and no other: the product, the
    "Database not available" error, exactly when there is no database,
    the "Product not found" error, or the validation error of a stored
    document that the output model refuses. *)
Theorem get_product_answers (db : option Database) (product_id : string) :
  (get_product db product_id = Raise database_unavailable ↔ db = None)
  ∧ ((∃ out, get_product db product_id = Ok out)
     ∨ get_product db product_id = Raise database_unavailable
     ∨ get_product db product_id = Raise not_found
     ∨ get_product db product_id = Raise ValidationError).
Proof.
  unfold get_product, not_found. destruct db as [d |].
  - destruct (match ObjectId_init product_id with
              | Ok oid => find_one_by_id d "product" oid
              | Raise _ => None
              end) as [x |].
    + destruct (doc_to_product_Ok_or_ValidationError x) as [[out H] | H];
        rewrite H; split; try (split; discriminate); eauto.
    + split; [split; discriminate | auto].
  - split; [split; reflexivity | auto].
Qed.

(** ** What seeding touches *)

Lemma insert_one_appends (d d' : Database) (name : string)
    (fs : gmap string value) (r : result ObjectId) :
  insert_one d name fs = (r, d') →
  (∃ added, db_getitem d' name = db_getitem d name ++ added)
  ∧ ∀ other, name ≠ other → db_getitem d' other = db_getitem d other.
Proof.
  destruct r as [oid | e]; intros H.
  - apply insert_one_Ok in H as (_ & _ & _ & Hdocs & Hother & _). eauto.
  - apply insert_one_Raise in H. unfold db_getitem. rewrite H.
    split; [exists []; rewrite app_nil_r; reflexivity | reflexivity].
Qed.

Lemma insert_all_appends (l : list (gmap string value)) (d : Database)
    (name : string) :
  (∃ added, db_getitem (insert_all d name l) name = db_getitem d name ++ added)
  ∧ ∀ other, name ≠ other →
             db_getitem (insert_all d name l) other = db_getitem d other.
Proof.
  revert d. induction l as [| fs l IH]; intros d; cbn [insert_all].
  - split; [exists []; rewrite app_nil_r; reflexivity | reflexivity].
  - destruct (insert_one d name fs) as [r d'] eqn:Hins.
    destruct (insert_one_appends d d' name fs r Hins) as [[added1 Hadded1] Hother1].
    destruct r as [oid | e].
    + destruct (IH d') as [[added Hadded] Hother]. split.
      * rewrite Hadded, Hadded1, <- app_assoc. eauto.
      * intros other Hne. rewrite (Hother other Hne). apply Hother1. exact Hne.
    + split; [eauto | exact Hother1].
Qed.

(** X15: start-up seeding only ever appends to the product collection: the
    documents that were there stay, in their places, and no other
    collection of the database changes. *)
Theorem seeding_only_appends_products (d d' : Database) :
  seed_products (Some d) = Some d' →
  (∃ added, db_getitem d' "product" = db_getitem d "product" ++ added)
  ∧ ∀ other, other ≠ "product" → db_getitem d' other = db_getitem d other.
Proof.
  unfold seed_products.
  destruct (count_documents d "product" >? 0); intros H;
    apply (inj Some) in H; subst d'.
  - split; [exists []; rewrite app_nil_r; reflexivity | reflexivity].
  - destruct (insert_all_appends samples d "product") as [Happ Hother].
    split; [exact Happ |]. intros other Hne. apply Hother. congruence.
Qed.

Lemma seeding_only_appends_products_witness :
  (∃ added, db_getitem seeded_db "product" = db_getitem empty_db "product" ++ added)
  ∧ ∀ other, other ≠ "product" →
             db_getitem seeded_db other = db_getitem empty_db other.
Proof.
  apply (seeding_only_appends_products empty_db seeded_db). reflexivity.
Defined.

(** ** Reading against writing *)

Lemma required_doc_get {A} (f : value → option A) (o : option value) :
  f VNone = None → required f (Some (default VNone o)) = required f o.
Proof. intros Hf. destruct o; simpl; [reflexivity | exact Hf]. Qed.

Lemma optional_doc_get (o : option value) :
  with_default optional_str_field None (Some (default VNone o))
  = with_default optional_str_field None o.
Proof. destruct o; reflexivity. Qed.

Lemma rating_doc_get (o : option value) :
  with_default rating_field rating_default (Some (default (VFloat 4.5) o))
  = with_default rating_field rating_default o.
Proof. destruct o; reflexivity. Qed.

(** X16: a stored document that has a [stock] is accepted by the output
    mapping exactly when its keys would be accepted as a creation body,
    and the product read is the product that the creation would build,
    with the document's identifier. *)
Theorem doc_read_as_body (x : document) (out : ProductOut) :
  is_Some (doc x !! "stock") →
  _doc_to_product x = Ok out
  ↔ ProductIn_of_json (doc x) = Some (fields out) ∧ id_ out = oid_hex (_id x).
Proof.
  intros [v Hstock].
  assert (Hsame : ProductIn_init (Some (doc_get x "title"))
            (Some (doc_get x "description")) (Some (doc_get x "price"))
            (Some (doc_get x "category")) (Some (doc_get x "platform"))
            (Some (doc_get x "image_url"))
            (Some (doc_get_default x "rating" (VFloat 4.5)))
            (Some (doc_get_default x "stock" (VInt 0)))
          = ProductIn_of_json (doc x)).
  { unfold ProductIn_of_json, ProductIn_init, doc_get, doc_get_default.
    rewrite !required_doc_get by reflexivity.
    rewrite !optional_doc_get, rating_doc_get, Hstock. reflexivity. }
  split.
  - intros H. apply doc_to_product_fields in H as [H Hid].
    rewrite Hsame in H. auto.
  - intros [H Hid]. unfold _doc_to_product, ProductOut_init.
    rewrite Hsame, H. simpl. destruct out as [i f]. simpl in *. congruence.
Qed.

Lemma doc_read_as_body_witness :
  _doc_to_product (Build_document (ObjectId_new 0) (model_dump minimal_product))
    = Ok {| id_ := "000000000000000000000000"; fields := minimal_product |}
  ↔ ProductIn_of_json (model_dump minimal_product) = Some minimal_product
    ∧ "000000000000000000000000"%string = oid_hex (ObjectId_new 0).
Proof.
  apply (doc_read_as_body
           (Build_document (ObjectId_new 0) (model_dump minimal_product))
           {| id_ := "000000000000000000000000"; fields := minimal_product |}).
  exists (VInt 100). reflexivity.
Defined.
